(** * stack_it: vote ledger, answer acceptance and submission guards

    A shallow embedding of the parts of the stack_it client that decide the
    voting, acceptance, ordering and validation behaviour:

    - [VoteButtons] (components/VoteButtons.tsx): [handleVote], [handleAccept],
      the component state and the effect that re-synchronises it with props;
    - [QuestionDetail] (pages/QuestionDetail.tsx): [fetchAnswers],
      [handleSubmitAnswer], the [canAccept] gate and the [onVoteChange]
      callbacks it hands to [VoteButtons];
    - [AskQuestion] (pages/AskQuestion.tsx): [handleSubmit].

    The hosted backend is modelled as explicit state (the [votes] table and the
    question / answer rows) that is passed through every handler, and every
    observable action of a handler (toast, console message, request sent to
    the backend, callback invoked on the parent) is recorded in an event
    trace.  The stored procedure [accept_answer] and the aggregator behind
    the [vote_count] column are not among the sources and follow the
    specification. *)

From Stdlib Require Import ZArith NArith List String Bool Lia.
From Stdlib Require Import Permutation Sorted.
Import ListNotations.

Local Open Scope string_scope.
Local Open Scope Z_scope.
Local Open Scope list_scope.

(** ** JavaScript values *)

Module Js.

(** Identifiers (row ids, user ids) are strings; a prop or column that is
    [undefined] / [null] is [None].  Vote types and counts are integers,
    which JavaScript numbers hold exactly. *)
Definition ident := string.

(** Truthiness of a possibly missing string: [undefined], [null] and the
    empty string are falsy. *)
Definition truthy (s : option ident) : bool :=
  match s with
  | Some s => negb (String.eqb s "")
  | None => false
  end.

(** [a || b] on possibly missing strings. *)
Definition or_else (a b : option ident) : option ident :=
  if truthy a then a else b.

(** [n || null] on a possibly missing number: [0] is falsy. *)
Definition or_null (n : option Z) : option Z :=
  match n with
  | Some v => if v =? 0 then None else Some v
  | None => None
  end.

(** [n || 0] on a possibly missing number. *)
Definition or_zero (n : option Z) : Z :=
  match n with
  | Some v => v
  | None => 0
  end.

(** [a === b] between a [number | null] and a [number]. *)
Definition strict_eq (a : option Z) (b : Z) : bool :=
  match a with
  | Some v => v =? b
  | None => false
  end.

(** [a === b] between two [number | undefined] values (dependency
    comparison of an effect). *)
Definition same_number (a b : option Z) : bool :=
  match a, b with
  | Some x, Some y => x =? y
  | None, None => true
  | _, _ => false
  end.

(** [a === b] between possibly missing strings. *)
Definition same_ident (a b : option ident) : bool :=
  match a, b with
  | Some x, Some y => String.eqb x y
  | None, None => true
  | _, _ => false
  end.

(** Text typed by the user is a sequence of UTF-16 code units. *)
Definition text := list N.

(** ECMAScript WhiteSpace and LineTerminator code points, the set removed by
    [String.prototype.trim]. *)
Definition is_white_space (c : N) : bool :=
  (existsb (N.eqb c)
     [9; 10; 11; 12; 13; 32; 160; 5760; 8232; 8233; 8239; 8287; 12288; 65279]
   || ((8192 <=? c) && (c <=? 8202)))%N.

Fixpoint trim_start (s : text) : text :=
  match s with
  | [] => []
  | c :: rest => if is_white_space c then trim_start rest else s
  end.

Definition trim_end (s : text) : text := rev (trim_start (rev s)).

Definition trim (s : text) : text := trim_end (trim_start s).

(** Truthiness of a string value: only the empty string is falsy. *)
Definition nonempty (s : text) : bool :=
  match s with
  | [] => false
  | _ :: _ => true
  end.

End Js.

(** ** Observable actions of the handlers *)

Inductive ToastVariant := Default | Destructive.

(** A row of the [votes] table.  [id] and [created_at] are filled in by the
    database and read by none of the handlers. *)
Inductive Column := question_id_col | answer_id_col.

Record VoteRow := mkVote {
  user_id : Js.ident;
  vote_type : Z;
  question_id : option Js.ident;
  answer_id : option Js.ident
}.

(** Requests sent to the backend.  [AuthGetUser] and the two selects only
    read; every other request writes or runs a stored procedure. *)
Inductive Request :=
| AuthGetUser
| VotesDelete (user : Js.ident) (col : Column) (value : option Js.ident)
| VotesUpsert (row : VoteRow) (onConflict : Column)
| RpcAcceptAnswer (question_id_param answer_id_param : Js.ident)
| AnswersInsert (content : Js.text) (question : option Js.ident) (user : Js.ident)
| AnswersSelect (question : option Js.ident)
| QuestionsSelect (question : option Js.ident)
| QuestionsInsert (title content : Js.text) (user : Js.ident)
| QuestionTagsInsert (question tag : Js.ident).

Definition is_mutation (r : Request) : bool :=
  match r with
  | AuthGetUser | AnswersSelect _ | QuestionsSelect _ => false
  | _ => true
  end.

Inductive Event :=
| Toast (title description : string) (variant : ToastVariant)
| ConsoleError (label : string)
| Remote (r : Request)
| OnVoteChange (newVoteCount : Z)
| OnAccept
| Navigate (question : Js.ident).

Definition is_remote (e : Event) : bool :=
  match e with
  | Remote _ => true
  | _ => false
  end.

Definition is_remote_mutation (e : Event) : bool :=
  match e with
  | Remote r => is_mutation r
  | _ => false
  end.

(** Outcome of a request as the client sees it: [{ error: null }] or
    [{ error }] with the error's [message].  A request that returns an error
    has written nothing. *)
Inductive Outcome :=
| Ok
| Failed (message : string).

(** [error.message || fallback]. *)
Definition message_or (o : string) (fallback : string) : string :=
  if String.eqb o "" then fallback else o.

(** ** The votes table *)

Module Votes.

Definition column (c : Column) (r : VoteRow) : option Js.ident :=
  match c with
  | question_id_col => question_id r
  | answer_id_col => answer_id r
  end.

(** [.eq(col, value)]: a row passes when its column holds that value; a
    NULL column or a missing value passes nothing. *)
Definition eq_filter (c : Column) (value : option Js.ident) (r : VoteRow) : bool :=
  match value, column c r with
  | Some v, Some x => String.eqb x v
  | _, _ => false
  end.

Definition owned_by (u : Js.ident) (r : VoteRow) : bool :=
  String.eqb (user_id r) u.

(** [.eq('user_id', u).eq(col, value)]: the rows of user [u] on a target. *)
Definition mine (u : Js.ident) (c : Column) (value : option Js.ident)
    (r : VoteRow) : bool :=
  owned_by u r && eq_filter c value r.

(** [.delete().eq('user_id', u).eq(col, value)] *)
Definition delete (u : Js.ident) (c : Column) (value : option Js.ident)
    (votes : list VoteRow) : list VoteRow :=
  filter (fun r => negb (mine u c value r)) votes.

(** A stored row conflicts with a payload on (user_id, col) when both
    columns are equal; NULL never conflicts. *)
Definition conflicts (c : Column) (new r : VoteRow) : bool :=
  mine (user_id new) c (column c new) r.

(** ON CONFLICT (user_id, col) DO UPDATE: the columns carried by the
    payload ([user_id], [vote_type] and [col]) are overwritten, the other
    target column keeps its stored value. *)
Definition overwrite (c : Column) (new r : VoteRow) : VoteRow :=
  match c with
  | question_id_col =>
      mkVote (user_id new) (vote_type new) (question_id new) (answer_id r)
  | answer_id_col =>
      mkVote (user_id new) (vote_type new) (question_id r) (answer_id new)
  end.

Definition overwrite_conflicting (new : VoteRow) (c : Column)
    (votes : list VoteRow) : list VoteRow :=
  map (fun r => if conflicts c new r then overwrite c new r else r) votes.

(** [.upsert(row, { onConflict: 'user_id,' + col })]: update the stored row
    that conflicts, insert the payload when none does. *)
Definition upsert (new : VoteRow) (c : Column) (votes : list VoteRow)
    : list VoteRow :=
  if existsb (conflicts c new) votes
  then overwrite_conflicting new c votes
  else votes ++ [new].

(** The vote types of the live rows that reference [value] in column [c]. *)
Definition types_on (c : Column) (value : option Js.ident)
    (votes : list VoteRow) : list Z :=
  map vote_type (filter (eq_filter c value) votes).

(** sum(vote_type) over all votes where target = X. *)
Definition sum (c : Column) (value : option Js.ident) (votes : list VoteRow) : Z :=
  fold_right Z.add 0 (types_on c value votes).

(** The vote types of the live rows of user [u] on that target. *)
Definition types_of (u : Js.ident) (c : Column) (value : option Js.ident)
    (votes : list VoteRow) : list Z :=
  map vote_type (filter (mine u c value) votes).

End Votes.

(** ** Question and answer rows *)

Module Questions.

(** The [Question] interface of QuestionDetail.tsx (the joined [profiles]
    and [question_tags] are only displayed). *)
Record Row := mkRow {
  id : Js.ident;
  title : Js.text;
  content : Js.text;
  vote_count : Z;
  answer_count : Z;
  view_count : Z;
  created_at : Z;
  user_id : Js.ident;
  accepted_answer_id : option Js.ident
}.

Definition has_id (i : Js.ident) (q : Row) : bool := String.eqb (id q) i.

Definition set_vote_count (n : Z) (q : Row) : Row :=
  mkRow (id q) (title q) (content q) n (answer_count q) (view_count q)
        (created_at q) (user_id q) (accepted_answer_id q).

Definition set_accepted_answer_id (a : option Js.ident) (q : Row) : Row :=
  mkRow (id q) (title q) (content q) (vote_count q) (answer_count q)
        (view_count q) (created_at q) (user_id q) a.

End Questions.

Module Answers.

(** The [Answer] interface of QuestionDetail.tsx, whose columns are all
    present, together with the [question_id] column that [fetchAnswers]
    filters on.  [created_at] is a timestamp, compared by the database as a
    point in time. *)
Record Row := mkRow {
  id : Js.ident;
  question_id : Js.ident;
  content : Js.text;
  vote_count : Z;
  is_accepted : bool;
  created_at : Z;
  user_id : Js.ident
}.

Definition has_id (i : Js.ident) (a : Row) : bool := String.eqb (id a) i.

Definition set_vote_count (n : Z) (a : Row) : Row :=
  mkRow (id a) (question_id a) (content a) n (is_accepted a) (created_at a)
        (user_id a).

Definition set_is_accepted (b : bool) (a : Row) : Row :=
  mkRow (id a) (question_id a) (content a) (vote_count a) b (created_at a)
        (user_id a).

(** [.eq('question_id', id)] *)
Definition of_question (i : option Js.ident) (a : Row) : bool :=
  match i with
  | Some q => String.eqb (question_id a) q
  | None => false
  end.

(** The columns [fetchAnswers] orders by. *)
Inductive OrderColumn := by_is_accepted | by_vote_count | by_created_at.

Definition compare_column (c : OrderColumn) (a b : Row) : comparison :=
  match c with
  | by_is_accepted => Bool.compare (is_accepted a) (is_accepted b)
  | by_vote_count => Z.compare (vote_count a) (vote_count b)
  | by_created_at => Z.compare (created_at a) (created_at b)
  end.

(** One [.order(column, { ascending })] clause. *)
Definition Clause := (OrderColumn * bool)%type.

(** ORDER BY with several clauses: the first clause that tells two rows
    apart decides. *)
Fixpoint compare_by (clauses : list Clause) (a b : Row) : comparison :=
  match clauses with
  | [] => Eq
  | (c, ascending) :: rest =>
      match (if ascending then compare_column c a b else compare_column c b a) with
      | Eq => compare_by rest a b
      | decided => decided
      end
  end.

Definition precedes (clauses : list Clause) (a b : Row) : bool :=
  match compare_by clauses a b with
  | Gt => false
  | _ => true
  end.

Fixpoint insert (clauses : list Clause) (a : Row) (sorted : list Row) : list Row :=
  match sorted with
  | [] => [a]
  | b :: rest =>
      if precedes clauses a b then a :: b :: rest
      else b :: insert clauses a rest
  end.

(** The rows in the order the ORDER BY clauses ask for. *)
Definition order (clauses : list Clause) (rows : list Row) : list Row :=
  fold_right (insert clauses) [] rows.

End Answers.

Record Tables := mkTables {
  questions : list Questions.Row;
  answers : list Answers.Row
}.

(** Modelled from the spec: the stored procedure [accept_answer], of which the
    sources hold only the declaration (arguments [question_id_param] and
    [answer_id_param], result [boolean]) and the caller [handleAccept].
    Spec 4.2: the requester must equal the question's author, the question's
    accepted answer must currently be null, and the answer must belong to the
    question; on success the question's accepted answer and the answer's
    [is_accepted] are set and [true] is returned; on any precondition
    failure nothing is mutated and [false] is returned. *)
Definition accept_answer (requester : option Js.ident)
    (question_id_param answer_id_param : Js.ident) (t : Tables) : Tables * bool :=
  match find (Questions.has_id question_id_param) (questions t) with
  | None => (t, false)
  | Some q =>
      if Js.same_ident requester (Some (Questions.user_id q))
         && match Questions.accepted_answer_id q with None => true | Some _ => false end
         && existsb (fun a => Answers.has_id answer_id_param a
                              && Answers.of_question (Some question_id_param) a)
                    (answers t)
      then
        (mkTables
           (map (fun q' => if Questions.has_id question_id_param q'
                           then Questions.set_accepted_answer_id (Some answer_id_param) q'
                           else q') (questions t))
           (map (fun a => if Answers.has_id answer_id_param a
                          then Answers.set_is_accepted true a
                          else a) (answers t)),
         true)
      else (t, false)
  end.

(** ** components/VoteButtons.tsx *)

Module VoteButtons.

(** [VoteButtonsProps]; the two callbacks are recorded as events. *)
Record Props := mkProps {
  questionId : option Js.ident;
  answerId : option Js.ident;
  currentVoteCount : Z;
  userVote : option Z;
  isAccepted : bool;
  canAccept : bool
}.

(** The three [useState] cells. *)
Record State := mkState {
  voteCount : Z;
  currentUserVote : option Z;
  isVoting : bool
}.

(** Initial values of the [useState] cells. *)
Definition initial (p : Props) : State :=
  mkState (currentVoteCount p) (Js.or_null (userVote p)) false.

(** Body of the [useEffect] with dependencies
    [[currentVoteCount, userVote]]. *)
Definition sync_with_props (p : Props) (s : State) : State :=
  mkState (currentVoteCount p) (Js.or_null (userVote p)) (isVoting s).

Definition deps_changed (old new : Props) : bool :=
  negb (currentVoteCount old =? currentVoteCount new)
  || negb (Js.same_number (userVote old) (userVote new)).

(** A render with new props: the effect runs when a dependency differs
    from the previous render. *)
Definition rerender (old new : Props) (s : State) : State :=
  if deps_changed old new then sync_with_props new s else s.

(** [questionId ? 'question_id' : 'answer_id'] *)
Definition target_column (p : Props) : Column :=
  if Js.truthy (questionId p) then question_id_col else answer_id_col.

(** [questionId || answerId] *)
Definition target_value (p : Props) : option Js.ident :=
  Js.or_else (questionId p) (answerId p).

(** [{ user_id, vote_type, ...(questionId ? { question_id } : { answer_id }) }] *)
Definition voteData (u : Js.ident) (voteType : Z) (p : Props) : VoteRow :=
  if Js.truthy (questionId p)
  then mkVote u voteType (questionId p) None
  else mkVote u voteType None (answerId p).

Definition stop_voting (s : State) : State :=
  mkState (voteCount s) (currentUserVote s) false.

Definition vote_failed : list Event :=
  [ConsoleError "Error voting:";
   Toast "Error" "Failed to record your vote" Destructive].

(** [handleVote(voteType)].  [user] is what [supabase.auth.getUser()]
    returns, [outcome] what the delete / upsert request returns. *)
Definition handleVote (user : option Js.ident) (outcome : Outcome)
    (p : Props) (voteType : Z) (s : State) (votes : list VoteRow)
    : State * list VoteRow * list Event :=
  match user with
  | None =>
      (stop_voting s, votes,
       [Remote AuthGetUser;
        Toast "Authentication required" "Please sign in to vote" Destructive])
  | Some u =>
      if Js.strict_eq (currentUserVote s) voteType then
        let request := VotesDelete u (target_column p) (target_value p) in
        match outcome with
        | Failed _ =>
            (stop_voting s, votes,
             Remote AuthGetUser :: Remote request :: vote_failed)
        | Ok =>
            let newVoteCount := voteCount s - voteType in
            (mkState newVoteCount None false,
             Votes.delete u (target_column p) (target_value p) votes,
             [Remote AuthGetUser; Remote request; OnVoteChange newVoteCount])
        end
      else
        let row := voteData u voteType p in
        let request := VotesUpsert row (target_column p) in
        match outcome with
        | Failed _ =>
            (stop_voting s, votes,
             Remote AuthGetUser :: Remote request :: vote_failed)
        | Ok =>
            let voteDiff := voteType - Js.or_zero (currentUserVote s) in
            let newVoteCount := voteCount s + voteDiff in
            (mkState newVoteCount (Some voteType) false,
             Votes.upsert row (target_column p) votes,
             [Remote AuthGetUser; Remote request; OnVoteChange newVoteCount])
        end
  end.

(** [handleAccept()].  [requester] is the session the backend sees,
    [outcome] tells whether the remote call itself went through. *)
Definition handleAccept (requester : option Js.ident) (outcome : Outcome)
    (p : Props) (t : Tables) : Tables * list Event :=
  match answerId p, questionId p with
  | Some a, Some q =>
      if negb (Js.truthy (Some a)) || negb (Js.truthy (Some q)) then (t, [])
      else
        let request := Remote (RpcAcceptAnswer q a) in
        match outcome with
        | Failed _ =>
            (t, [request; ConsoleError "Error accepting answer:";
                 Toast "Error" "Failed to accept answer" Destructive])
        | Ok =>
            let '(t', data) := accept_answer requester q a t in
            if data then
              (t', [request; OnAccept;
                    Toast "Answer accepted"
                          "This answer has been marked as accepted" Default])
            else
              (t', [request;
                    Toast "Error"
                          "You can only accept answers to your own questions"
                          Destructive])
        end
  | _, _ => (t, [])
  end.

(** The accept button is rendered with
    [disabled={!canAccept || isAccepted}]. *)
Definition accept_disabled (p : Props) : bool :=
  negb (canAccept p) || isAccepted p.

Definition click_accept (requester : option Js.ident) (outcome : Outcome)
    (p : Props) (t : Tables) : Tables * list Event :=
  if accept_disabled p then (t, []) else handleAccept requester outcome p t.

End VoteButtons.

(** ** pages/QuestionDetail.tsx *)

Module QuestionDetail.

Import VoteButtons.

(** The [useState] cells of the page; [user] holds the id of the session
    user that [checkAuth] stored when the page was opened. *)
Record Page := mkPage {
  question : option Questions.Row;
  answers : list Answers.Row;
  newAnswer : Js.text;
  loading : bool;
  submitting : bool;
  user : option Js.ident
}.

Definition set_question (q : option Questions.Row) (pg : Page) : Page :=
  mkPage q (answers pg) (newAnswer pg) (loading pg) (submitting pg) (user pg).

Definition set_answers (l : list Answers.Row) (pg : Page) : Page :=
  mkPage (question pg) l (newAnswer pg) (loading pg) (submitting pg) (user pg).

Definition set_newAnswer (s : Js.text) (pg : Page) : Page :=
  mkPage (question pg) (answers pg) s (loading pg) (submitting pg) (user pg).

Definition set_loading (b : bool) (pg : Page) : Page :=
  mkPage (question pg) (answers pg) (newAnswer pg) b (submitting pg) (user pg).

Definition set_submitting (b : bool) (pg : Page) : Page :=
  mkPage (question pg) (answers pg) (newAnswer pg) (loading pg) b (user pg).

(** The three [.order] calls of [fetchAnswers], in the order they are
    chained. *)
Definition answer_order : list Answers.Clause :=
  [(Answers.by_is_accepted, false);
   (Answers.by_vote_count, false);
   (Answers.by_created_at, true)].

(** The rows the [answers] query returns for question [id]. *)
Definition select_answers (id : option Js.ident) (rows : list Answers.Row)
    : list Answers.Row :=
  Answers.order answer_order (filter (Answers.of_question id) rows).

(** [fetchAnswers()] for the page of question [id], against the stored
    answer rows. *)
Definition fetchAnswers (id : option Js.ident) (outcome : Outcome)
    (rows : list Answers.Row) (pg : Page) : Page * list Event :=
  match outcome with
  | Ok =>
      (set_loading false (set_answers (select_answers id rows) pg),
       [Remote (AnswersSelect id)])
  | Failed _ =>
      (set_loading false pg,
       [Remote (AnswersSelect id); ConsoleError "Error fetching answers:"])
  end.

(** [handleSubmitAnswer(e)].  The two refetches issued after a successful
    insert are recorded as requests. *)
Definition handleSubmitAnswer (id : option Js.ident) (outcome : Outcome)
    (pg : Page) : Page * list Event :=
  match user pg with
  | None =>
      (pg, [Toast "Authentication required"
                  "Please sign in to post an answer" Destructive])
  | Some u =>
      if negb (Js.nonempty (Js.trim (newAnswer pg))) then
        (pg, [Toast "Answer required" "Please provide an answer" Destructive])
      else
        let request := Remote (AnswersInsert (Js.trim (newAnswer pg)) id u) in
        match outcome with
        | Failed message =>
            (set_submitting false pg,
             [request; ConsoleError "Error posting answer:";
              Toast "Error" (message_or message "Failed to post answer")
                    Destructive])
        | Ok =>
            (set_submitting false (set_newAnswer [] pg),
             [request;
              Toast "Answer posted!"
                    "Your answer has been posted successfully" Default;
              Remote (AnswersSelect id); Remote (QuestionsSelect id)])
        end
  end.

(** [user?.id === question.user_id && !question.accepted_answer_id] *)
Definition may_accept (u : option Js.ident) (q : Questions.Row) : bool :=
  Js.same_ident u (Some (Questions.user_id q))
  && negb (Js.truthy (Questions.accepted_answer_id q)).

(** Props of the [VoteButtons] rendered next to the question. *)
Definition question_buttons (q : Questions.Row) : Props :=
  mkProps (Some (Questions.id q)) None (Questions.vote_count q) None false false.

(** Props of the [VoteButtons] rendered next to an answer. *)
Definition answer_buttons (u : option Js.ident) (q : Questions.Row)
    (a : Answers.Row) : Props :=
  mkProps (Some (Questions.id q)) (Some (Answers.id a)) (Answers.vote_count a)
          None (Answers.is_accepted a) (may_accept u q).

(** The [onVoteChange] callback of the question's buttons:
    [setQuestion(prev => prev ? { ...prev, vote_count: newCount } : null)]. *)
Definition question_onVoteChange (pg : Page) (e : Event) : Page :=
  match e with
  | OnVoteChange newCount =>
      set_question (option_map (Questions.set_vote_count newCount) (question pg)) pg
  | _ => pg
  end.

(** The [onVoteChange] callback of the buttons of answer [a]:
    [setAnswers(prev => prev.map(x => x.id === a.id
                                      ? { ...x, vote_count: newCount } : x))]. *)
Definition answer_onVoteChange (a : Js.ident) (pg : Page) (e : Event) : Page :=
  match e with
  | OnVoteChange newCount =>
      set_answers
        (map (fun x => if Answers.has_id a x
                       then Answers.set_vote_count newCount x else x)
             (answers pg)) pg
  | _ => pg
  end.

(** A click on a vote arrow next to the question: [handleVote] runs with
    the props rendered from the page, its [onVoteChange] calls update the
    page, and the buttons are rendered again with the props of the updated
    page. *)
Definition vote_on_question (session : option Js.ident) (outcome : Outcome)
    (voteType : Z) (pg : Page) (s : State) (votes : list VoteRow)
    : Page * State * list VoteRow * list Event :=
  match question pg with
  | None => (pg, s, votes, [])
  | Some q =>
      let p := question_buttons q in
      let '(s', votes', events) := handleVote session outcome p voteType s votes in
      let pg' := fold_left question_onVoteChange events pg in
      let p' := match question pg' with
                | Some q' => question_buttons q'
                | None => p
                end in
      (pg', rerender p p' s', votes', events)
  end.

(** A click on a vote arrow next to the answer with id [a]. *)
Definition vote_on_answer (session : option Js.ident) (outcome : Outcome)
    (a : Js.ident) (voteType : Z) (pg : Page) (s : State)
    (votes : list VoteRow) : Page * State * list VoteRow * list Event :=
  match question pg, find (Answers.has_id a) (answers pg) with
  | Some q, Some row =>
      let p := answer_buttons (user pg) q row in
      let '(s', votes', events) := handleVote session outcome p voteType s votes in
      let pg' := fold_left (answer_onVoteChange a) events pg in
      let p' := match find (Answers.has_id a) (answers pg') with
                | Some row' => answer_buttons (user pg') q row'
                | None => p
                end in
      (pg', rerender p p' s', votes', events)
  | _, _ => (pg, s, votes, [])
  end.

End QuestionDetail.

(** ** pages/AskQuestion.tsx *)

Module AskQuestion.

Record Tag := mkTag {
  tag_id : Js.ident;
  tag_name : string;
  tag_color : option string
}.

(** The [useState] cells of the form. *)
Record Form := mkForm {
  title : Js.text;
  content : Js.text;
  selectedTags : list Tag;
  loading : bool;
  user : option Js.ident
}.

Definition set_loading (b : bool) (f : Form) : Form :=
  mkForm (title f) (content f) (selectedTags f) b (user f).

(** What the insert of the question returns: the new row's id, or an
    error. *)
Inductive Inserted :=
| NewQuestion (id : Js.ident)
| InsertFailed (message : string).

(** [handleSubmit(e)] *)
Definition handleSubmit (outcome : Inserted) (f : Form) : Form * list Event :=
  match user f with
  | None =>
      (f, [Toast "Authentication required"
                 "Please sign in to ask a question" Destructive])
  | Some u =>
      if negb (Js.nonempty (Js.trim (title f)))
         || negb (Js.nonempty (Js.trim (content f))) then
        (f, [Toast "Missing information"
                   "Please provide both a title and description" Destructive])
      else if (List.length (selectedTags f) =? 0)%nat then
        (f, [Toast "Tags required"
                   "Please add at least one tag to your question" Destructive])
      else
        let request :=
          Remote (QuestionsInsert (Js.trim (title f)) (Js.trim (content f)) u) in
        match outcome with
        | InsertFailed message =>
            (set_loading false f,
             [request; ConsoleError "Error posting question:";
              Toast "Error" (message_or message "Failed to post question")
                    Destructive])
        | NewQuestion q =>
            (set_loading false f,
             request
             :: map (fun tag => Remote (QuestionTagsInsert q (tag_id tag)))
                    (selectedTags f)
             ++ [Toast "Question posted!"
                       "Your question has been posted successfully" Default;
                 Navigate q])
        end
  end.

End AskQuestion.

(** ** Properties stated by the specification *)

Module Spec.

Import VoteButtons.

(** The cache of one mounted [VoteButtons] agrees with the ledger for
    user [u]: the displayed count is the sum over the live rows of the
    target the component addresses, and the recorded vote is the user's
    one live row on it (or none). *)
Definition in_sync (u : Js.ident) (p : Props) (s : State)
    (votes : list VoteRow) : Prop :=
  voteCount s = Votes.sum (target_column p) (target_value p) votes
  /\ Votes.types_of u (target_column p) (target_value p) votes
     = match currentUserVote s with
       | Some v => [v]
       | None => []
       end.

(** Exactly one of the two target columns of a vote row is set. *)
Definition one_target (r : VoteRow) : bool :=
  match question_id r, answer_id r with
  | Some _, None | None, Some _ => true
  | _, _ => false
  end.

(** The order the specification asks of an answer list: accepted first,
    then vote count descending, then creation time ascending. *)
Definition listed_before (a b : Answers.Row) : Prop :=
  (Answers.is_accepted a = true /\ Answers.is_accepted b = false)
  \/ (Answers.is_accepted a = Answers.is_accepted b
      /\ (Answers.vote_count a > Answers.vote_count b
          \/ (Answers.vote_count a = Answers.vote_count b
              /\ Answers.created_at a <= Answers.created_at b))).

(** Invalid input of the question form and of the answer box. *)
Definition invalid_question (f : AskQuestion.Form) : Prop :=
  Js.trim (AskQuestion.title f) = []
  \/ Js.trim (AskQuestion.content f) = []
  \/ AskQuestion.selectedTags f = [].

Definition invalid_answer (pg : QuestionDetail.Page) : Prop :=
  Js.trim (QuestionDetail.newAnswer pg) = [].

End Spec.

(** ** A question page with two visitors *)

Module Scenario.

Import VoteButtons QuestionDetail.

(** "Why?" asked by [asker], no votes yet. *)
Definition q1 : Questions.Row :=
  Questions.mkRow "q1" [87; 104; 121; 63]%N [60; 112; 62; 63]%N 0 0 0 0 "asker" None.

(** An answer to it, written by [B]. *)
Definition a1 : Answers.Row :=
  Answers.mkRow "a1" "q1" [60; 112; 62; 66]%N 0 false 10 "B".

(** A second answer, written by [C]. *)
Definition a2 : Answers.Row :=
  Answers.mkRow "a2" "q1" [60; 112; 62; 67]%N 0 false 20 "C".

Definition tables : Tables := mkTables [q1] [a1; a2].

(** The page of question [q] as user [u] sees it once it has loaded. *)
Definition page (u : Js.ident) (q : Questions.Row) (l : list Answers.Row) : Page :=
  mkPage (Some q) l [] false false (Some u).

(** The question row as fetched when the ledger holds [votes]: its
    [vote_count] is the sum over the live rows. *)
Definition fetched (q : Questions.Row) (votes : list VoteRow) : Questions.Row :=
  Questions.set_vote_count
    (Votes.sum question_id_col (Some (Questions.id q)) votes) q.

Definition ledger_sum (votes : list VoteRow) : Z :=
  Votes.sum question_id_col (Some "q1") votes.

(** Three answers with vote counts 3, 3 and 5 and mixed acceptance flags. *)
Definition three_answers : list Answers.Row :=
  [Answers.mkRow "x" "q1" [] 3 false 20 "B";
   Answers.mkRow "y" "q1" [] 3 true 30 "C";
   Answers.mkRow "z" "q1" [] 5 false 40 "D";
   Answers.mkRow "w" "q2" [] 9 true 5 "D"].

End Scenario.

(** ** Text operations used by the tag input and the question list *)

Module Text.

(** [a === b] on strings. *)
Fixpoint eqb (a b : Js.text) : bool :=
  match a, b with
  | [], [] => true
  | x :: a', y :: b' => N.eqb x y && eqb a' b'
  | _, _ => false
  end.

Fixpoint starts_with (needle hay : Js.text) : bool :=
  match needle, hay with
  | [], _ => true
  | x :: needle', y :: hay' => N.eqb x y && starts_with needle' hay'
  | _ :: _, [] => false
  end.

(** [hay.includes(needle)] *)
Fixpoint includes (hay needle : Js.text) : bool :=
  starts_with needle hay
  || match hay with
     | [] => false
     | _ :: hay' => includes hay' needle
     end.

(** Lower-casing of the letters A to Z, the part of [toLowerCase] that the
    examples use; the handlers below take [toLowerCase] as a parameter. *)
Definition ascii_lower (s : Js.text) : Js.text :=
  map (fun c => if ((65 <=? c) && (c <=? 90))%N then (c + 32)%N else c) s.

(** A string without white space at either end. *)
Definition trimmed (s : Js.text) : Prop :=
  match s with
  | [] => True
  | c :: _ => Js.is_white_space c = false /\ Js.is_white_space (last s c) = false
  end.

End Text.

(** ** components/TagInput.tsx *)

Module TagInput.

(** The [Tag] interface of TagInput.tsx. *)
Record Tag := mkTag {
  id : Js.ident;
  name : Js.text;
  color : option string
}.

(** The three [useState] cells of the input. *)
Record State := mkState {
  inputValue : Js.text;
  suggestions : list Tag;
  showSuggestions : bool
}.

(** Requests sent to the [tags] table. *)
Inductive Request :=
| TagsSuggest (query : Js.text)
| TagsLookup (tagName : Js.text)
| TagsInsert (tagName : Js.text).

Definition has_id (i : Js.ident) (tag : Tag) : bool := String.eqb (id tag) i.

(** [selectedTags.some(selected => selected.id === tag.id)] *)
Definition selected_id (selectedTags : list Tag) (tag : Tag) : bool :=
  existsb (has_id (id tag)) selectedTags.

(** What [fetchTagSuggestions] stores when the backend answers with [data]
    (none when the request fails). *)
Definition fetchTagSuggestions (data : option (list Tag)) (selectedTags : list Tag)
    (s : State) : State :=
  match data with
  | Some rows =>
      mkState (inputValue s)
              (filter (fun tag => negb (selected_id selectedTags tag)) rows)
              (showSuggestions s)
  | None => s
  end.

(** The [useEffect] on [[inputValue]]. *)
Definition input_effect (data : option (list Tag)) (selectedTags : list Tag)
    (s : State) : State * list Request :=
  match inputValue s with
  | _ :: _ =>
      (fetchTagSuggestions data selectedTags
         (mkState (inputValue s) (suggestions s) true),
       [TagsSuggest (inputValue s)])
  | [] => (mkState (inputValue s) [] false, [])
  end.

(** [removeTag(tagId)] *)
Definition removeTag (tagId : Js.ident) (selectedTags : list Tag) : list Tag :=
  filter (fun tag => negb (has_id tagId tag)) selectedTags.

(** The click handler of a suggestion. *)
Definition pick_suggestion (tag : Tag) (selectedTags : list Tag) (s : State)
    : list Tag * State :=
  (selectedTags ++ [tag], mkState [] (suggestions s) false).

Section Handlers.

Variable toLowerCase : Js.text -> Js.text.

(** [selectedTags.some(tag => tag.name.toLowerCase() === tagName.toLowerCase())] *)
Definition selected_name (tagName : Js.text) (selectedTags : list Tag) : bool :=
  existsb (fun tag => Text.eqb (toLowerCase (name tag)) (toLowerCase tagName))
          selectedTags.

(** [addTag(tagName)].  [lookup] is the row the case-insensitive lookup
    returns and [created] the row the insert returns, none when the request
    gives no row. *)
Definition addTag (lookup created : option Tag) (tagName : Js.text)
    (selectedTags : list Tag) (s : State) : list Tag * State * list Request :=
  if negb (Js.nonempty (Js.trim tagName)) || selected_name tagName selectedTags
  then (selectedTags, s, [])
  else
    let cleared := mkState [] (suggestions s) false in
    match lookup with
    | Some tag => (selectedTags ++ [tag], cleared, [TagsLookup tagName])
    | None =>
        match created with
        | Some tag =>
            (selectedTags ++ [tag], cleared, [TagsLookup tagName; TagsInsert tagName])
        | None => (selectedTags, cleared, [TagsLookup tagName; TagsInsert tagName])
        end
    end.

(** [handleKeyDown(e)] for the key named [key]. *)
Definition handleKeyDown (key : string) (lookup created : option Tag)
    (selectedTags : list Tag) (s : State) : list Tag * State * list Request :=
  if String.eqb key "Enter" then
    if Js.nonempty (Js.trim (inputValue s))
    then addTag lookup created (Js.trim (inputValue s)) selectedTags s
    else (selectedTags, s, [])
  else if String.eqb key "Backspace" && negb (Js.nonempty (inputValue s))
          && (0 <? List.length selectedTags)%nat then
    match nth_error selectedTags (List.length selectedTags - 1) with
    | Some tag => (removeTag (id tag) selectedTags, s, [])
    | None => (selectedTags, s, [])
    end
  else (selectedTags, s, []).

End Handlers.

End TagInput.

(** ** pages/Index.tsx: the question list *)

Module Index.

(** A fetched question with the names of its tags (the [question_tags]
    join). *)
Record Listed := mkListed {
  row : Questions.Row;
  tag_names : list Js.text
}.

(** [array.sort(compare)]: the sort is stable, and [compare(a, b) > 0] puts
    [a] after [b]. *)
Fixpoint insert (compare : Listed -> Listed -> Z) (a : Listed)
    (sorted : list Listed) : list Listed :=
  match sorted with
  | [] => [a]
  | b :: rest =>
      if 0 <? compare a b then b :: insert compare a rest
      else a :: b :: rest
  end.

Definition sort (compare : Listed -> Listed -> Z) (l : list Listed) : list Listed :=
  fold_right (insert compare) [] l.

(** The three comparators of [filterAndSortQuestions]. *)
Definition newest_first (a b : Listed) : Z :=
  Questions.created_at (row b) - Questions.created_at (row a).

Definition most_votes_first (a b : Listed) : Z :=
  Questions.vote_count (row b) - Questions.vote_count (row a).

Definition most_answers_first (a b : Listed) : Z :=
  Questions.answer_count (row b) - Questions.answer_count (row a).

Definition unanswered (q : Listed) : bool :=
  Questions.answer_count (row q) =? 0.

Section Filter.

Variable toLowerCase : Js.text -> Js.text.

(** The predicate of the search filter. *)
Definition matches (searchQuery : Js.text) (q : Listed) : bool :=
  Text.includes (toLowerCase (Questions.title (row q))) (toLowerCase searchQuery)
  || Text.includes (toLowerCase (Questions.content (row q))) (toLowerCase searchQuery)
  || existsb (fun tag => Text.includes (toLowerCase tag) (toLowerCase searchQuery))
             (tag_names q).

(** [let filtered = questions; if (searchQuery.trim()) filtered = questions.filter(...)] *)
Definition searched (questions : list Listed) (searchQuery : Js.text) : list Listed :=
  if Js.nonempty (Js.trim searchQuery)
  then filter (matches searchQuery) questions
  else questions.

(** [filterAndSortQuestions()].  The first component is the [questions]
    array after the call, the second the list handed to
    [setFilteredQuestions].  Without a search [filtered] is the [questions]
    array itself, and [sort] reorders it in place; [filter] always builds a
    new array. *)
Definition filterAndSortQuestions (questions : list Listed) (activeTab : string)
    (searchQuery : Js.text) : list Listed * list Listed :=
  let filtered := searched questions searchQuery in
  let in_place (sorted : list Listed) :=
    (if Js.nonempty (Js.trim searchQuery) then questions else sorted, sorted) in
  if String.eqb activeTab "newest" then in_place (sort newest_first filtered)
  else if String.eqb activeTab "popular" then in_place (sort most_votes_first filtered)
  else if String.eqb activeTab "unanswered" then (questions, filter unanswered filtered)
  else if String.eqb activeTab "active" then in_place (sort most_answers_first filtered)
  else (questions, filtered).

End Filter.

(** The column each sorting tab orders by, largest first. *)
Definition sort_key (activeTab : string) : option (Listed -> Z) :=
  if String.eqb activeTab "newest" then Some (fun q => Questions.created_at (row q))
  else if String.eqb activeTab "popular" then Some (fun q => Questions.vote_count (row q))
  else if String.eqb activeTab "active" then Some (fun q => Questions.answer_count (row q))
  else None.

End Index.

(** ** What the pages render from their state *)

Module Render.

(** The submit button of the question form:
    [disabled={loading || !title.trim() || !content.trim()
               || selectedTags.length === 0}]. *)
Definition post_question_disabled (f : AskQuestion.Form) : bool :=
  AskQuestion.loading f
  || negb (Js.nonempty (Js.trim (AskQuestion.title f)))
  || negb (Js.nonempty (Js.trim (AskQuestion.content f)))
  || (List.length (AskQuestion.selectedTags f) =? 0)%nat.

(** The submit button of the answer form:
    [disabled={submitting || !newAnswer.trim()}]. *)
Definition post_answer_disabled (pg : QuestionDetail.Page) : bool :=
  QuestionDetail.submitting pg
  || negb (Js.nonempty (Js.trim (QuestionDetail.newAnswer pg))).

(** The two arrows of [VoteButtons] call [handleVote(1)] and
    [handleVote(-1)]. *)
Definition arrow (up : bool) : Z := if up then 1 else -1.

End Render.

(** ** Sequences of clicks on the question's vote arrows *)

Module Clicks.

Import VoteButtons QuestionDetail.

(** One click: the session at that moment, what the backend answers, and
    the arrow. *)
Record Click := mkClick {
  session : option Js.ident;
  outcome : Outcome;
  up : bool
}.

Definition vote_click (c : Click) (pg : Page) (s : State) (votes : list VoteRow)
    : Page * State * list VoteRow * list Event :=
  vote_on_question (session c) (outcome c) (Render.arrow (up c)) pg s votes.

(** The clicks in turn, each on the page and the ledger the one before has
    left; the traces are concatenated. *)
Fixpoint vote_clicks (clicks : list Click) (pg : Page) (s : State)
    (votes : list VoteRow) : Page * State * list VoteRow * list Event :=
  match clicks with
  | [] => (pg, s, votes, [])
  | c :: rest =>
      let '(pg1, s1, votes1, events1) := vote_click c pg s votes in
      let '(pg2, s2, votes2, events2) := vote_clicks rest pg1 s1 votes1 in
      (pg2, s2, votes2, events1 ++ events2)
  end.

Definition is_delete (e : Event) : bool :=
  match e with
  | Remote (VotesDelete _ _ _) => true
  | _ => false
  end.

(** The page and the buttons right after the page has loaded question [q]. *)
Definition loaded (pg : Page) (s : State) : Prop :=
  exists q, question pg = Some q
            /\ voteCount s = Questions.vote_count q
            /\ currentUserVote s = None.

End Clicks.

(** ** Sample inputs *)

Module Sample.

Definition css : TagInput.Tag := TagInput.mkTag "t1" [99; 115; 115]%N None.
Definition js : TagInput.Tag := TagInput.mkTag "t2" [106; 115]%N None.
Definition sql : TagInput.Tag := TagInput.mkTag "t3" [115; 113; 108]%N None.

Definition listed (i : Js.ident) (votes answers created : Z) : Index.Listed :=
  Index.mkListed
    (Questions.mkRow i [81]%N [60; 112; 62]%N votes answers 0 created "asker" None)
    [[99; 115; 115]%N].

(** Four questions, stored newest first. *)
Definition listing : list Index.Listed :=
  [listed "q4" 2 0 40; listed "q3" 7 1 30; listed "q2" 2 3 20; listed "q1" 7 0 10].

Definition by_votes (q : Index.Listed) : Z := Questions.vote_count (Index.row q).

End Sample.

(** ** The vote count kept on the question and answer rows *)

Module Aggregator.

Import VoteButtons.

(** What a request does to single rows of the votes table, as
    [Votes.delete] and [Votes.upsert] do it. *)
Inductive RowChange :=
| Inserted (new : VoteRow)
| Deleted (old : VoteRow)
| Replaced (old new : VoteRow).

Definition changes (e : Event) (votes : list VoteRow) : list RowChange :=
  match e with
  | Remote (VotesDelete u c value) =>
      map Deleted (filter (Votes.mine u c value) votes)
  | Remote (VotesUpsert new c) =>
      if existsb (Votes.conflicts c new) votes
      then map (fun r => Replaced r (Votes.overwrite c new r))
               (filter (Votes.conflicts c new) votes)
      else [Inserted new]
  | _ => []
  end.

(** What a row counts for the target that column [c] and [value] name:
    its vote type when it references the target, nothing otherwise. *)
Definition counts (c : Column) (value : option Js.ident) (r : VoteRow) : Z :=
  if Votes.eq_filter c value r then vote_type r else 0.

(** Modelled from the spec: the aggregator that maintains the [vote_count]
    cached on a question or answer row.  The sources hold only the column
    and the declarations of [calculate_question_vote_count] and
    [calculate_answer_vote_count].  Spec 4.1: a vote that is inserted adds its
    vote type to the aggregate of its target, a vote that is deleted
    subtracts it, and a vote that is replaced adds the difference between the
    new and the old type; each update is an increment or decrement of the
    stored count. *)
Definition trigger (c : Column) (value : option Js.ident) (vote_count : Z)
    (change : RowChange) : Z :=
  match change with
  | Inserted new => vote_count + counts c value new
  | Deleted old => vote_count - counts c value old
  | Replaced old new => vote_count + (counts c value new - counts c value old)
  end.

(** One cast as the backend sees it: who is signed in, what the request
    returns, the buttons that were clicked, the vote type, and the state
    those buttons were in, whatever it was. *)
Record Cast := mkCast {
  caller : option Js.ident;
  outcome : Outcome;
  buttons : Props;
  voteType : Z;
  believed : State
}.

(** Modelled from the spec: the stored ledger and the [vote_count] of the
    row that column [c] and [value] name, after one cast.  The ledger is the
    one [handleVote] leaves; the count is moved, for a request that went
    through, by the trigger on each row the request changed. *)
Definition cast (c : Column) (value : option Js.ident) (k : Cast)
    (stored : list VoteRow * Z) : list VoteRow * Z :=
  let '(_, votes', events) :=
    handleVote (caller k) (outcome k) (buttons k) (voteType k) (believed k)
               (fst stored) in
  (votes',
   match outcome k with
   | Ok => fold_left (trigger c value)
                     (flat_map (fun e => changes e (fst stored)) events)
                     (snd stored)
   | Failed _ => snd stored
   end).

(** A sequence of casts, by whatever users and from whatever pages. *)
Definition casts (c : Column) (value : option Js.ident) (ks : list Cast)
    (stored : list VoteRow * Z) : list VoteRow * Z :=
  fold_left (fun st k => cast c value k st) ks stored.

End Aggregator.

(** ** The votes table: delete and upsert against the per-target sum *)

Section VotesLemmas.

Variable u : Js.ident.
Variable c : Column.
Variable value : option Js.ident.

Lemma sum_cons (r : VoteRow) (votes : list VoteRow) :
  Votes.sum c value (r :: votes)
  = (if Votes.eq_filter c value r then vote_type r else 0) + Votes.sum c value votes.
Proof.
  unfold Votes.sum, Votes.types_on; simpl.
  destruct (Votes.eq_filter c value r); reflexivity.
Qed.

Lemma types_of_cons (r : VoteRow) (votes : list VoteRow) :
  Votes.types_of u c value (r :: votes)
  = (if Votes.mine u c value r then [vote_type r] else []) ++ Votes.types_of u c value votes.
Proof.
  unfold Votes.types_of; simpl.
  destruct (Votes.mine u c value r); reflexivity.
Qed.

Lemma sum_app (l1 l2 : list VoteRow) :
  Votes.sum c value (l1 ++ l2) = Votes.sum c value l1 + Votes.sum c value l2.
Proof.
  induction l1 as [|r l1 IH]; [reflexivity|].
  rewrite <- app_comm_cons, !sum_cons, IH; lia.
Qed.

Lemma types_of_app (l1 l2 : list VoteRow) :
  Votes.types_of u c value (l1 ++ l2)
  = Votes.types_of u c value l1 ++ Votes.types_of u c value l2.
Proof.
  unfold Votes.types_of. now rewrite filter_app, map_app.
Qed.

(** Deleting the user's rows on a target lowers the target's sum by the
    sum of those rows. *)
Lemma delete_sum (votes : list VoteRow) :
  Votes.sum c value (Votes.delete u c value votes)
  = Votes.sum c value votes - fold_right Z.add 0 (Votes.types_of u c value votes).
Proof.
  induction votes as [|r votes IH]; [reflexivity|].
  rewrite types_of_cons, sum_cons. unfold Votes.delete in *. cbn [filter].
  destruct (Votes.mine u c value r) eqn:M; cbn [negb].
  - assert (E : Votes.eq_filter c value r = true)
      by (unfold Votes.mine in M; apply andb_true_iff in M; tauto).
    rewrite E, IH. simpl. lia.
  - rewrite sum_cons, IH. simpl. lia.
Qed.

Lemma delete_types_of (votes : list VoteRow) :
  Votes.types_of u c value (Votes.delete u c value votes) = [].
Proof.
  induction votes as [|r votes IH]; [reflexivity|].
  unfold Votes.delete in *; simpl.
  destruct (Votes.mine u c value r) eqn:E; simpl; [exact IH|].
  rewrite types_of_cons. now rewrite E.
Qed.

(** Rows of other users, and of other targets, survive a delete. *)
Lemma delete_keeps (votes : list VoteRow) (r : VoteRow) :
  Votes.mine u c value r = false -> In r votes -> In r (Votes.delete u c value votes).
Proof.
  intros Hr Hin. unfold Votes.delete. apply filter_In. split; [exact Hin|].
  now rewrite Hr.
Qed.

Variable new : VoteRow.
Hypothesis new_user : user_id new = u.
Hypothesis new_target : Votes.column c new = value.

Lemma conflicts_mine (r : VoteRow) : Votes.conflicts c new r = Votes.mine u c value r.
Proof. unfold Votes.conflicts. now rewrite new_user, new_target. Qed.

Lemma no_row_no_conflict (votes : list VoteRow) :
  Votes.types_of u c value votes = [] ->
  existsb (Votes.conflicts c new) votes = false.
Proof.
  induction votes as [|r votes IH]; [reflexivity|].
  rewrite types_of_cons; simpl. rewrite conflicts_mine.
  destruct (Votes.mine u c value r); simpl; [discriminate|exact IH].
Qed.

Lemma row_conflict (votes : list VoteRow) :
  Votes.types_of u c value votes <> [] ->
  existsb (Votes.conflicts c new) votes = true.
Proof.
  induction votes as [|r votes IH]; [intros H; now elim H|].
  rewrite types_of_cons; simpl. rewrite conflicts_mine.
  destruct (Votes.mine u c value r); simpl; [reflexivity|exact IH].
Qed.

Lemma overwrite_mine (r : VoteRow) :
  Votes.mine u c value r = true ->
  Votes.mine u c value (Votes.overwrite c new r) = true
  /\ Votes.eq_filter c value (Votes.overwrite c new r) = true
  /\ Votes.eq_filter c value r = true
  /\ vote_type (Votes.overwrite c new r) = vote_type new.
Proof.
  unfold Votes.mine, Votes.owned_by. intros H.
  apply andb_true_iff in H as [Hu Hv].
  assert (Hnew : Votes.eq_filter c value (Votes.overwrite c new r) = true).
  { unfold Votes.eq_filter in *. rewrite <- new_target in *.
    destruct c; simpl in *.
    - destruct (question_id new); [apply String.eqb_refl|discriminate].
    - destruct (answer_id new); [apply String.eqb_refl|discriminate]. }
  repeat split; try assumption.
  - rewrite Hnew, andb_true_r. destruct c; simpl; rewrite new_user; apply String.eqb_refl.
  - destruct c; reflexivity.
Qed.

(** Overwriting the conflicting rows turns every vote of the user on the
    target into the new vote type. *)
Lemma replaced_types_of (votes : list VoteRow) :
  Votes.types_of u c value (Votes.overwrite_conflicting new c votes)
  = map (fun _ => vote_type new) (Votes.types_of u c value votes).
Proof.
  induction votes as [|r votes IH]; [reflexivity|].
  unfold Votes.overwrite_conflicting in *; simpl.
  rewrite !types_of_cons, map_app, IH, conflicts_mine.
  destruct (Votes.mine u c value r) eqn:E.
  - destruct (overwrite_mine r E) as (-> & _ & _ & ->). reflexivity.
  - now rewrite E.
Qed.

Lemma replaced_sum (votes : list VoteRow) :
  Votes.sum c value (Votes.overwrite_conflicting new c votes)
  = Votes.sum c value votes
    - fold_right Z.add 0 (Votes.types_of u c value votes)
    + vote_type new * Z.of_nat (List.length (Votes.types_of u c value votes)).
Proof.
  induction votes as [|r votes IH].
  { unfold Votes.overwrite_conflicting, Votes.sum, Votes.types_of; simpl; lia. }
  unfold Votes.overwrite_conflicting in *; simpl map.
  rewrite !sum_cons, types_of_cons, IH, conflicts_mine.
  destruct (Votes.mine u c value r) eqn:E.
  - destruct (overwrite_mine r E) as (_ & -> & -> & ->).
    simpl app. simpl fold_right. simpl List.length. lia.
  - simpl. lia.
Qed.

Lemma upsert_fresh (votes : list VoteRow) :
  Votes.types_of u c value votes = [] ->
  Votes.upsert new c votes = votes ++ [new].
Proof.
  intros H. unfold Votes.upsert. now rewrite no_row_no_conflict.
Qed.

Lemma upsert_existing (votes : list VoteRow) :
  Votes.types_of u c value votes <> [] ->
  Votes.upsert new c votes = Votes.overwrite_conflicting new c votes.
Proof.
  intros H. unfold Votes.upsert. now rewrite row_conflict.
Qed.

End VotesLemmas.

(** ** [handleVote] against the ledger *)

Section HandleVote.

Import VoteButtons.

Variable u : Js.ident.
Variable p : Props.

Lemma voteData_user (voteType : Z) : user_id (voteData u voteType p) = u.
Proof. unfold voteData. destruct (Js.truthy (questionId p)); reflexivity. Qed.

Lemma voteData_type (voteType : Z) : vote_type (voteData u voteType p) = voteType.
Proof. unfold voteData. destruct (Js.truthy (questionId p)); reflexivity. Qed.

Lemma voteData_target (voteType : Z) :
  Votes.column (target_column p) (voteData u voteType p) = target_value p.
Proof.
  unfold voteData, target_column, target_value, Js.or_else.
  destruct (Js.truthy (questionId p)); reflexivity.
Qed.

(** The row written by the upsert branch never sets both target columns. *)
Lemma voteData_one_target (voteType : Z) :
  Js.truthy (target_value p) = true ->
  Spec.one_target (voteData u voteType p) = true.
Proof.
  unfold voteData, target_value, Js.or_else, Spec.one_target.
  destruct (Js.truthy (questionId p)) eqn:E; simpl.
  - intros _. destruct (questionId p); [reflexivity|discriminate].
  - intros H. destruct (answerId p); [reflexivity|discriminate].
Qed.

Variable target : Js.ident.
Hypothesis addressed : target_value p = Some target.

Lemma voteData_counts (voteType : Z) :
  Votes.sum (target_column p) (target_value p) [voteData u voteType p] = voteType
  /\ Votes.types_of u (target_column p) (target_value p) [voteData u voteType p]
     = [voteType].
Proof.
  pose proof (voteData_target voteType) as Ht.
  pose proof (voteData_user voteType) as Hu.
  pose proof (voteData_type voteType) as Hv.
  unfold Votes.sum, Votes.types_on, Votes.types_of, Votes.mine, Votes.eq_filter,
    Votes.owned_by.
  simpl. rewrite Ht, Hu, addressed, !String.eqb_refl. simpl. rewrite Hv.
  split; [lia|reflexivity].
Qed.

(** One call keeps the cache in step with the ledger, whatever the vote
    type and whether or not the request goes through. *)
Lemma handleVote_in_sync (outcome : Outcome) (voteType : Z) (s : State)
    (votes : list VoteRow) :
  Spec.in_sync u p s votes ->
  Spec.in_sync u p (fst (fst (handleVote (Some u) outcome p voteType s votes)))
                   (snd (fst (handleVote (Some u) outcome p voteType s votes))).
Proof.
  intros [Hcount Hmine]. unfold handleVote.
  destruct (Js.strict_eq (currentUserVote s) voteType) eqn:Hsame;
    destruct outcome; simpl; try (split; assumption).
  - (* toggle-off *)
    destruct (currentUserVote s) as [v|]; [|discriminate].
    simpl in Hsame. apply Z.eqb_eq in Hsame. subst v.
    split; simpl.
    + rewrite delete_sum, Hmine, Hcount. simpl. lia.
    + apply delete_types_of.
  - (* insert or replace *)
    pose proof (voteData_user voteType) as Hu.
    pose proof (voteData_target voteType) as Ht.
    pose proof (voteData_type voteType) as Hv.
    destruct (currentUserVote s) as [v|].
    + assert (Hne : Votes.types_of u (target_column p) (target_value p) votes <> [])
        by (rewrite Hmine; discriminate).
      rewrite (upsert_existing u _ _ _ Hu Ht votes Hne).
      split; simpl.
      * rewrite (replaced_sum u _ _ _ Hu Ht), Hmine, Hcount, Hv. simpl. lia.
      * rewrite (replaced_types_of u _ _ _ Hu Ht), Hmine, Hv. reflexivity.
    + rewrite (upsert_fresh u _ _ _ Hu Ht votes Hmine).
      destruct (voteData_counts voteType) as [Hs Hm].
      split; simpl.
      * rewrite sum_app, Hs, Hcount. lia.
      * rewrite types_of_app, Hmine, Hm. reflexivity.
Qed.

(** With the recorded vote carried from one call to the next, a second
    cast of the same type undoes the first. *)
Lemma handleVote_twice_undoes (voteType : Z) (s : State) (votes : list VoteRow) :
  Spec.in_sync u p s votes ->
  currentUserVote s = None ->
  let first := handleVote (Some u) Ok p voteType s votes in
  let r := handleVote (Some u) Ok p voteType (fst (fst first)) (snd (fst first)) in
  voteCount (fst (fst r)) = voteCount s
  /\ currentUserVote (fst (fst r)) = None
  /\ Votes.types_of u (target_column p) (target_value p) (snd (fst r)) = []
  /\ Votes.sum (target_column p) (target_value p) (snd (fst r))
     = Votes.sum (target_column p) (target_value p) votes.
Proof.
  intros Hsync Hnone first r.
  pose proof (handleVote_in_sync Ok voteType s votes Hsync) as Hfirst.
  fold first in Hfirst.
  pose proof (handleVote_in_sync Ok voteType _ _ Hfirst) as [Hc Hm].
  fold r in Hc, Hm.
  assert (Hs : fst (fst r) = mkState (voteCount s) None false).
  { subst r first. unfold handleVote. rewrite Hnone. simpl.
    rewrite Z.eqb_refl. simpl. f_equal. lia. }
  rewrite Hs in *. simpl in *. destruct Hsync as [Hc0 _].
  repeat split; try assumption. lia.
Qed.

(** With the recorded vote equal to the user's live vote, casting another
    type overwrites the row and moves the count by the difference. *)
Lemma handleVote_switch (old voteType : Z) (s : State) (votes : list VoteRow) :
  Spec.in_sync u p s votes ->
  currentUserVote s = Some old ->
  voteType <> old ->
  let r := handleVote (Some u) Ok p voteType s votes in
  voteCount (fst (fst r)) = voteCount s + (voteType - old)
  /\ Votes.types_of u (target_column p) (target_value p) (snd (fst r)) = [voteType]
  /\ Votes.sum (target_column p) (target_value p) (snd (fst r))
     = Votes.sum (target_column p) (target_value p) votes + (voteType - old).
Proof.
  intros Hsync Hold Hne r.
  pose proof (handleVote_in_sync Ok voteType s votes Hsync) as [Hc Hm].
  fold r in Hc, Hm.
  assert (Hs : fst (fst r) = mkState (voteCount s + (voteType - old)) (Some voteType) false).
  { subst r. unfold handleVote. rewrite Hold. simpl.
    destruct (Z.eqb_spec old voteType); [congruence|reflexivity]. }
  rewrite Hs in *. simpl in *. destruct Hsync as [Hc0 _].
  repeat split; try assumption. lia.
Qed.

End HandleVote.

(** ** Votes cast from the question page *)

Section PageVotes.

Import VoteButtons QuestionDetail.

(** The buttons next to an answer are handed the id of the enclosing
    question as well, so the row they write addresses the question. *)
Lemma answer_buttons_target (usr : option Js.ident) (u : Js.ident)
    (q : Questions.Row) (a : Answers.Row) (voteType : Z) :
  Questions.id q <> "" ->
  target_column (answer_buttons usr q a) = question_id_col
  /\ target_value (answer_buttons usr q a) = Some (Questions.id q)
  /\ voteData u voteType (answer_buttons usr q a)
     = mkVote u voteType (Some (Questions.id q)) None.
Proof.
  intros Hq.
  unfold target_column, target_value, voteData, Js.or_else, answer_buttons; simpl.
  destruct (String.eqb_spec (Questions.id q) ""); [contradiction|].
  simpl. repeat split.
Qed.

(** On the question page every cast that goes through changes the count
    handed back to the buttons, the effect runs, and the recorded vote is
    dropped: the page passes no [userVote]. *)
Lemma vote_on_question_forgets (u : Js.ident) (voteType : Z) (pg : Page)
    (q : Questions.Row) (s : State) (votes : list VoteRow) :
  question pg = Some q ->
  voteCount s = Questions.vote_count q ->
  voteType <> 0 ->
  currentUserVote
    (snd (fst (fst (vote_on_question (Some u) Ok voteType pg s votes)))) = None.
Proof.
  intros Hq Hcount Hvt. unfold vote_on_question, handleVote. rewrite Hq.
  destruct (Js.strict_eq (currentUserVote s) voteType) eqn:Hsame; simpl;
    rewrite Hq; simpl; unfold rerender, deps_changed; simpl.
  - destruct (Z.eqb_spec (Questions.vote_count q) (voteCount s - voteType));
      [lia|reflexivity].
  - destruct (Z.eqb_spec (Questions.vote_count q)
                (voteCount s + (voteType - Js.or_zero (currentUserVote s))));
      [|reflexivity].
    exfalso. destruct (currentUserVote s) as [v|]; simpl in *; [|lia].
    assert (v = voteType) by lia. subst v.
    rewrite Z.eqb_refl in Hsame. discriminate.
Qed.

End PageVotes.

(** ** The stored vote count against the ledger *)

Section StoredCount.

Import VoteButtons Aggregator.

Variable c : Column.
Variable value : option Js.ident.

Lemma sum_cons_counts (r : VoteRow) (votes : list VoteRow) :
  Votes.sum c value (r :: votes) = counts c value r + Votes.sum c value votes.
Proof. apply sum_cons. Qed.

Lemma sum_without (P : VoteRow -> bool) (votes : list VoteRow) :
  Votes.sum c value (filter (fun r => negb (P r)) votes)
  = Votes.sum c value votes - Votes.sum c value (filter P votes).
Proof.
  induction votes as [|r votes IH]; [reflexivity|]. simpl.
  destruct (P r); simpl; rewrite !sum_cons_counts, ?IH; lia.
Qed.

Lemma sum_overwritten (P : VoteRow -> bool) (h : VoteRow -> VoteRow)
    (votes : list VoteRow) :
  Votes.sum c value (map (fun r => if P r then h r else r) votes)
  = Votes.sum c value votes
    + (Votes.sum c value (map h (filter P votes))
       - Votes.sum c value (filter P votes)).
Proof.
  induction votes as [|r votes IH]; [reflexivity|]. simpl.
  destruct (P r); simpl; rewrite !sum_cons_counts, ?IH; lia.
Qed.

Lemma trigger_deleted (rows : list VoteRow) (n : Z) :
  fold_left (trigger c value) (map Deleted rows) n = n - Votes.sum c value rows.
Proof.
  revert n. induction rows as [|r rows IH]; intros n; simpl.
  - unfold Votes.sum. simpl. lia.
  - rewrite IH, sum_cons_counts. lia.
Qed.

Lemma trigger_replaced (h : VoteRow -> VoteRow) (rows : list VoteRow) (n : Z) :
  fold_left (trigger c value) (map (fun r => Replaced r (h r)) rows) n
  = n + (Votes.sum c value (map h rows) - Votes.sum c value rows).
Proof.
  revert n. induction rows as [|r rows IH]; intros n; simpl.
  - unfold Votes.sum. simpl. lia.
  - rewrite IH, !sum_cons_counts. lia.
Qed.

(** The triggers of one request move the stored count exactly as the
    request moves the sum over the live rows. *)
Lemma cast_keeps_count (k : Cast) (votes : list VoteRow) :
  snd (cast c value k (votes, Votes.sum c value votes))
  = Votes.sum c value (fst (cast c value k (votes, Votes.sum c value votes))).
Proof.
  unfold cast, handleVote. cbn [fst snd].
  destruct (caller k) as [u|]; [|destruct (outcome k); reflexivity].
  destruct (Js.strict_eq (currentUserVote (believed k)) (voteType k));
    destruct (outcome k); cbn [fst snd flat_map changes app]; try reflexivity.
  - rewrite app_nil_r, trigger_deleted. unfold Votes.delete.
    now rewrite sum_without.
  - rewrite app_nil_r. unfold Votes.upsert.
    destruct (existsb
                (Votes.conflicts (target_column (buttons k))
                   (voteData u (voteType k) (buttons k))) votes).
    + rewrite trigger_replaced. unfold Votes.overwrite_conflicting.
      now rewrite sum_overwritten.
    + simpl. rewrite sum_app, sum_cons_counts. unfold Votes.sum at 3. simpl. lia.
Qed.

(** C1.  For every sequence of casts, by whatever users, from whatever
    pages and in whatever state their buttons are, each request succeeding
    or failing: when the [vote_count] stored on a row equals the sum of
    [vote_type] over the live vote rows of that target before the sequence,
    it equals that sum after it. *)
Theorem stored_vote_count_equals_ledger_sum
    (ks : list Cast) (votes : list VoteRow) (vote_count : Z) :
  vote_count = Votes.sum c value votes ->
  snd (casts c value ks (votes, vote_count))
  = Votes.sum c value (fst (casts c value ks (votes, vote_count))).
Proof.
  intros ->. unfold casts.
  revert votes. induction ks as [|k ks IH]; intros votes; [reflexivity|].
  simpl.
  pose proof (cast_keeps_count k votes) as Hstep.
  destruct (cast c value k (votes, Votes.sum c value votes)) as [votes' n].
  simpl in Hstep. subst n. apply IH.
Qed.

End StoredCount.

Lemma stored_vote_count_equals_ledger_sum_witness :
  let qb := QuestionDetail.question_buttons Scenario.q1 in
  let ks :=
    [Aggregator.mkCast (Some "A") Ok qb 1 (VoteButtons.initial qb);
     Aggregator.mkCast (Some "B") Ok qb 1 (VoteButtons.initial qb);
     Aggregator.mkCast (Some "A") Ok qb 1 (VoteButtons.mkState 1 None false);
     Aggregator.mkCast (Some "A") Ok qb (-1) (VoteButtons.mkState 2 None false);
     Aggregator.mkCast None Ok qb 1 (VoteButtons.initial qb);
     Aggregator.mkCast (Some "C") (Failed "offline") qb (-1) (VoteButtons.initial qb);
     Aggregator.mkCast (Some "B") Ok qb 1 (VoteButtons.mkState 1 (Some 1) false)] in
  let r := Aggregator.casts question_id_col (Some "q1") ks ([], 0) in
  0 = Votes.sum question_id_col (Some "q1") []
  /\ snd r = Votes.sum question_id_col (Some "q1") (fst r)
  /\ r = ([mkVote "A" (-1) (Some "q1") None], -1).
Proof.
  intros qb ks r.
  assert (H : 0 = Votes.sum question_id_col (Some "q1") []) by reflexivity.
  exact (conj H (conj (stored_vote_count_equals_ledger_sum
                         question_id_col (Some "q1") ks [] 0 H)
                      eq_refl)).
Defined.

(** ** The vote ledger and the displayed count *)

Section VoteClaims.

Import VoteButtons QuestionDetail Scenario.

(** C3 on the code.  The worked trace, cast from the question page: [A]
    casts +1, [B] opens the page and casts +1, [A] casts -1 and then -1
    again.  The ledger sums are 1, 2, 0, 0 and the counts on [A]'s page are
    1, 0, -1: the last cast is sent as an upsert, not as a delete, and the
    switch moved [A]'s count by 1, not by 2. *)
Theorem worked_trace_on_question_page :
  let '(pgA1, sA1, v1, _) :=
    vote_on_question (Some "A") Ok 1 (page "A" q1 [])
                     (initial (question_buttons q1)) [] in
  let qB := fetched q1 v1 in
  let '(pgB1, sB1, v2, _) :=
    vote_on_question (Some "B") Ok 1 (page "B" qB [])
                     (initial (question_buttons qB)) v1 in
  let '(pgA2, sA2, v3, _) := vote_on_question (Some "A") Ok (-1) pgA1 sA1 v2 in
  let '(pgA3, sA3, v4, e4) := vote_on_question (Some "A") Ok (-1) pgA2 sA2 v3 in
  map ledger_sum [v1; v2; v3; v4] = [1; 2; 0; 0]
  /\ map voteCount [sA1; sA2; sA3] = [1; 0; -1]
  /\ voteCount sB1 = 2
  /\ map currentUserVote [sA1; sA2; sA3] = [None; None; None]
  /\ v4 = [mkVote "A" (-1) (Some "q1") None; mkVote "B" 1 (Some "q1") None]
  /\ e4 = [Remote AuthGetUser;
           Remote (VotesUpsert (mkVote "A" (-1) (Some "q1") None) question_id_col);
           OnVoteChange (-1)].
Proof.
  vm_compute. repeat split.
Qed.

(** C4 on the code.  [A] casts +1 twice in succession from the question
    page.  After the first cast the page hands the new count back to the
    buttons and the recorded vote is dropped, so the second cast is sent as
    an upsert: the row stays live and the displayed count is 2, not 0. *)
Theorem second_cast_on_question_page_keeps_the_row :
  let '(pg1, s1, v1, _) :=
    vote_on_question (Some "A") Ok 1 (page "A" q1 [])
                     (initial (question_buttons q1)) [] in
  let '(pg2, s2, v2, e2) := vote_on_question (Some "A") Ok 1 pg1 s1 v1 in
  currentUserVote s1 = None
  /\ v2 = [mkVote "A" 1 (Some "q1") None]
  /\ Votes.types_of "A" question_id_col (Some "q1") v2 = [1]
  /\ voteCount s2 = 2
  /\ option_map Questions.vote_count (question pg2) = Some 2
  /\ e2 = [Remote AuthGetUser;
           Remote (VotesUpsert (mkVote "A" 1 (Some "q1") None) question_id_col);
           OnVoteChange 2].
Proof.
  vm_compute. repeat split.
Qed.

(** C5 on the code.  [A] casts +1 on answer [a1] of question [q1]: the row
    written references the question and leaves [answer_id] unset, so the
    vote counts for the question and not for the answer, while the page
    raises the answer's displayed count. *)
Theorem answer_vote_is_written_against_the_question :
  let pg := page "A" q1 [a1] in
  let '(pg', s', votes, events) :=
    vote_on_answer (Some "A") Ok "a1" 1 pg
                   (initial (answer_buttons (Some "A") q1 a1)) [] in
  votes = [mkVote "A" 1 (Some "q1") None]
  /\ Votes.sum answer_id_col (Some "a1") votes = 0
  /\ Votes.sum question_id_col (Some "q1") votes = 1
  /\ map Answers.vote_count (answers pg') = [1]
  /\ option_map Questions.vote_count (question pg') = Some 0
  /\ events = [Remote AuthGetUser;
               Remote (VotesUpsert (mkVote "A" 1 (Some "q1") None) question_id_col);
               OnVoteChange 1].
Proof.
  vm_compute. repeat split.
Qed.

(** C10.  When the delete or upsert request fails, [handleVote] leaves the
    displayed count and the recorded vote as they were, calls no
    [onVoteChange], and reports the failure; on the question page the
    question's [vote_count] and the buttons' state stay as they were too. *)
Theorem failed_vote_request_changes_nothing
    (u : Js.ident) (message : string) (p : Props) (voteType : Z) (s : State)
    (votes : list VoteRow) (pg : Page) :
  let r := handleVote (Some u) (Failed message) p voteType s votes in
  fst (fst r) = stop_voting s
  /\ voteCount (fst (fst r)) = voteCount s
  /\ currentUserVote (fst (fst r)) = currentUserVote s
  /\ snd (fst r) = votes
  /\ (forall n, ~ In (OnVoteChange n) (snd r))
  /\ In (Toast "Error" "Failed to record your vote" Destructive) (snd r)
  /\ (let r' := vote_on_question (Some u) (Failed message) voteType pg s votes in
      fst (fst (fst r')) = pg
      /\ voteCount (snd (fst (fst r'))) = voteCount s
      /\ currentUserVote (snd (fst (fst r'))) = currentUserVote s).
Proof.
  assert (Hr : handleVote (Some u) (Failed message) p voteType s votes
               = (stop_voting s, votes,
                  Remote AuthGetUser
                  :: Remote (if Js.strict_eq (currentUserVote s) voteType
                             then VotesDelete u (target_column p) (target_value p)
                             else VotesUpsert (voteData u voteType p) (target_column p))
                  :: vote_failed)).
  { unfold handleVote. destruct (Js.strict_eq (currentUserVote s) voteType); reflexivity. }
  cbv zeta. rewrite Hr. simpl.
  repeat split.
  - intros n [H|[H|[H|[H|[]]]]]; discriminate.
  - right; right; right; left; reflexivity.
  - unfold vote_on_question. destruct (question pg) as [q|] eqn:Hq; [|reflexivity].
    unfold handleVote.
    destruct (Js.strict_eq (currentUserVote s) voteType); simpl; reflexivity.
  - unfold vote_on_question. destruct (question pg) as [q|] eqn:Hq; [|reflexivity].
    unfold handleVote.
    destruct (Js.strict_eq (currentUserVote s) voteType); simpl; rewrite Hq;
      unfold rerender, deps_changed; simpl; rewrite Z.eqb_refl; reflexivity.
  - unfold vote_on_question. destruct (question pg) as [q|] eqn:Hq; [|reflexivity].
    unfold handleVote.
    destruct (Js.strict_eq (currentUserVote s) voteType); simpl; rewrite Hq;
      unfold rerender, deps_changed; simpl; rewrite Z.eqb_refl; reflexivity.
Qed.

End VoteClaims.

(** ** The order of the answer list *)

Section AnswerOrder.

Import QuestionDetail.

(** The three [.order] clauses decide exactly the order of the
    specification. *)
Lemma precedes_listed_before (a b : Answers.Row) :
  Answers.precedes answer_order a b = true <-> Spec.listed_before a b.
Proof.
  unfold Answers.precedes, answer_order, Spec.listed_before; simpl.
  destruct (Answers.is_accepted a), (Answers.is_accepted b); simpl;
    destruct (Z.compare_spec (Answers.vote_count b) (Answers.vote_count a));
    destruct (Z.compare_spec (Answers.created_at a) (Answers.created_at b));
    split; intros Hyp; try reflexivity; try discriminate;
    try (right; split; [reflexivity|lia]);
    try (left; split; reflexivity);
    try (destruct Hyp as [[? ?]|[? ?]]; try discriminate; lia).
Qed.

Lemma listed_before_total (a b : Answers.Row) :
  Answers.precedes answer_order a b = false -> Spec.listed_before b a.
Proof.
  intros H. apply precedes_listed_before. revert H.
  unfold Answers.precedes, answer_order; simpl.
  destruct (Answers.is_accepted a), (Answers.is_accepted b); simpl;
    rewrite ?(Z.compare_antisym (Answers.vote_count b) (Answers.vote_count a));
    rewrite ?(Z.compare_antisym (Answers.created_at a) (Answers.created_at b));
    destruct (Answers.vote_count b ?= Answers.vote_count a);
    destruct (Answers.created_at a ?= Answers.created_at b);
    simpl; intros H; try reflexivity; discriminate.
Qed.

Lemma listed_before_trans (a b c : Answers.Row) :
  Spec.listed_before a b -> Spec.listed_before b c -> Spec.listed_before a c.
Proof.
  unfold Spec.listed_before.
  destruct (Answers.is_accepted a), (Answers.is_accepted b), (Answers.is_accepted c);
    intros [[? ?]|[? ?]] [[? ?]|[? ?]]; try discriminate;
    try (left; split; reflexivity);
    right; split; try reflexivity; lia.
Qed.

Lemma insert_permutation (a : Answers.Row) (l : list Answers.Row) :
  Permutation (Answers.insert answer_order a l) (a :: l).
Proof.
  induction l as [|b l IH]; simpl; [reflexivity|].
  destruct (Answers.precedes answer_order a b); [reflexivity|].
  rewrite IH. apply perm_swap.
Qed.

Lemma order_permutation (l : list Answers.Row) :
  Permutation (Answers.order answer_order l) l.
Proof.
  induction l as [|a l IH]; simpl; [reflexivity|].
  rewrite insert_permutation. now apply perm_skip.
Qed.

Lemma insert_sorted (a : Answers.Row) (l : list Answers.Row) :
  Sorted Spec.listed_before l ->
  Sorted Spec.listed_before (Answers.insert answer_order a l).
Proof.
  induction l as [|b l IH]; intros Hl; simpl.
  - repeat constructor.
  - destruct (Answers.precedes answer_order a b) eqn:E.
    + constructor; [exact Hl|]. constructor. now apply precedes_listed_before.
    + inversion Hl as [|? ? Hs Hhd]; subst.
      constructor; [now apply IH|].
      destruct l as [|c l]; simpl.
      * constructor. now apply listed_before_total.
      * destruct (Answers.precedes answer_order a c); constructor.
        -- now apply listed_before_total.
        -- now inversion Hhd.
Qed.

Lemma order_sorted (l : list Answers.Row) :
  StronglySorted Spec.listed_before (Answers.order answer_order l).
Proof.
  apply Sorted_StronglySorted.
  - intros a b c. apply listed_before_trans.
  - induction l as [|a l IH]; simpl; [constructor|now apply insert_sorted].
Qed.

(** C7.  The answer list that [fetchAnswers] stores is the set of answers
    of the question, each once, ordered with accepted answers first, then
    by vote count descending, then by creation time ascending; of three
    answers with vote counts 3, 3 and 5, the second accepted, the accepted
    one comes first, then the one with 5 votes, then the remaining one. *)
Theorem fetchAnswers_lists_in_spec_order
    (id : option Js.ident) (rows : list Answers.Row) (pg : Page) :
  let l := answers (fst (fetchAnswers id Ok rows pg)) in
  l = select_answers id rows
  /\ Permutation l (filter (Answers.of_question id) rows)
  /\ StronglySorted Spec.listed_before l
  /\ map Answers.id (select_answers (Some "q1") Scenario.three_answers)
     = ["y"; "z"; "x"].
Proof.
  simpl. repeat split.
  - apply order_permutation.
  - apply order_sorted.
Qed.

End AnswerOrder.

(** ** Accepting an answer *)

Section Acceptance.

Import VoteButtons.

Lemma same_ident_eq (a b : option Js.ident) :
  Js.same_ident a b = true <-> a = b.
Proof.
  destruct a as [x|], b as [y|]; simpl; split; intros H;
    try reflexivity; try discriminate.
  - apply String.eqb_eq in H. now subst.
  - injection H as ->. apply String.eqb_refl.
Qed.

(** After the update the question found under the id carries the accepted
    answer. *)
Lemma find_accepted (qid : Js.ident) (aid : option Js.ident)
    (qs : list Questions.Row) :
  find (Questions.has_id qid)
       (map (fun q' => if Questions.has_id qid q'
                       then Questions.set_accepted_answer_id aid q'
                       else q') qs)
  = option_map (Questions.set_accepted_answer_id aid)
               (find (Questions.has_id qid) qs).
Proof.
  induction qs as [|q qs IH]; [reflexivity|]. simpl.
  destruct (Questions.has_id qid q) eqn:E.
  - unfold Questions.has_id in *. simpl. now rewrite E.
  - now rewrite E.
Qed.

(** A call that finds an accepted answer on the question changes nothing
    and returns [false], whoever calls and whatever the answer. *)
Lemma accept_answer_once (requester : option Js.ident) (qid aid old : Js.ident)
    (q : Questions.Row) (t : Tables) :
  find (Questions.has_id qid) (questions t) = Some q ->
  Questions.accepted_answer_id q = Some old ->
  accept_answer requester qid aid t = (t, false).
Proof.
  intros Hq Hacc. unfold accept_answer. rewrite Hq, Hacc.
  now rewrite andb_false_r.
Qed.

(** C2.  When the question's author accepts answer [a1] of a question
    that has no accepted answer, the call returns [true] and records [a1];
    a second call for the same question with any answer id [a2], a
    different one in particular, by anyone, returns [false] and leaves the tables as they are, and
    [handleAccept] takes this [false] on its ordinary path: no
    [onAccept], no caught exception. *)
Theorem second_accept_returns_false
    (author : Js.ident) (requester2 : option Js.ident) (qid a1 a2 : Js.ident)
    (q : Questions.Row) (t : Tables)
    (count : Z) (vote : option Z) (accepted gate : bool) :
  find (Questions.has_id qid) (questions t) = Some q ->
  Questions.user_id q = author ->
  Questions.accepted_answer_id q = None ->
  existsb (fun a => Answers.has_id a1 a && Answers.of_question (Some qid) a)
          (answers t) = true ->
  let first := accept_answer (Some author) qid a1 t in
  let p2 := mkProps (Some qid) (Some a2) count vote accepted gate in
  snd first = true
  /\ option_map Questions.accepted_answer_id
       (find (Questions.has_id qid) (questions (fst first))) = Some (Some a1)
  /\ accept_answer requester2 qid a2 (fst first) = (fst first, false)
  /\ fst (handleAccept requester2 Ok p2 (fst first)) = fst first
  /\ ~ In OnAccept (snd (handleAccept requester2 Ok p2 (fst first)))
  /\ ~ In (ConsoleError "Error accepting answer:")
          (snd (handleAccept requester2 Ok p2 (fst first))).
Proof.
  intros Hq Hauthor Hnone Ha1 first p2.
  assert (Hfirst : first
            = (mkTables
                 (map (fun q' => if Questions.has_id qid q'
                                 then Questions.set_accepted_answer_id (Some a1) q'
                                 else q') (questions t))
                 (map (fun a => if Answers.has_id a1 a
                                then Answers.set_is_accepted true a
                                else a) (answers t)),
               true)).
  { subst first. unfold accept_answer.
    rewrite Hq, Hauthor, Hnone, Ha1. simpl. now rewrite String.eqb_refl. }
  assert (Hfound : find (Questions.has_id qid) (questions (fst first))
                   = Some (Questions.set_accepted_answer_id (Some a1) q)).
  { rewrite Hfirst. simpl. now rewrite find_accepted, Hq. }
  assert (Hsecond : forall r a, accept_answer r qid a (fst first) = (fst first, false)).
  { intros r a. now apply (accept_answer_once r qid a a1 _ _ Hfound). }
  split; [now rewrite Hfirst|].
  split; [now rewrite Hfound|].
  split; [apply Hsecond|].
  unfold handleAccept, p2; simpl.
  destruct (negb (negb (a2 =? "")%string) || negb (negb (qid =? "")%string)); simpl.
  - repeat split; intros [].
  - rewrite Hsecond. simpl. repeat split.
    + intros [H|[H|[]]]; discriminate.
    + intros [H|[H|[]]]; discriminate.
Qed.

(** C6.  For a requester who is not the author of the question (signed in
    as someone else, or not signed in), [accept_answer] returns [false] and
    changes nothing, whatever the answer id and whatever the question's
    accepted answer; the page also renders the accept button disabled, so
    a click on it issues no request. *)
Theorem non_author_accept_returns_false
    (requester : option Js.ident) (qid aid : Js.ident) (q : Questions.Row)
    (t : Tables) (a : Answers.Row) (outcome : Outcome) :
  find (Questions.has_id qid) (questions t) = Some q ->
  requester <> Some (Questions.user_id q) ->
  accept_answer requester qid aid t = (t, false)
  /\ QuestionDetail.may_accept requester q = false
  /\ accept_disabled (QuestionDetail.answer_buttons requester q a) = true
  /\ click_accept requester outcome (QuestionDetail.answer_buttons requester q a) t = (t, []).
Proof.
  intros Hq Hne.
  assert (Hsame : Js.same_ident requester (Some (Questions.user_id q)) = false).
  { destruct (Js.same_ident requester (Some (Questions.user_id q))) eqn:E;
      [|reflexivity].
    apply same_ident_eq in E. contradiction. }
  assert (Hgate : QuestionDetail.may_accept requester q = false)
    by (unfold QuestionDetail.may_accept; now rewrite Hsame).
  assert (Hdis : accept_disabled (QuestionDetail.answer_buttons requester q a) = true)
    by (unfold accept_disabled, QuestionDetail.answer_buttons; simpl; now rewrite Hgate).
  repeat split; try assumption.
  - unfold accept_answer. now rewrite Hq, Hsame.
  - unfold click_accept. now rewrite Hdis.
Qed.

End Acceptance.

Section AcceptanceWitnesses.

Import VoteButtons Scenario.

Lemma second_accept_returns_false_witness :
  let first := accept_answer (Some "asker") "q1" "a1" tables in
  find (Questions.has_id "q1") (questions tables) = Some q1
  /\ snd first = true
  /\ accept_answer (Some "asker") "q1" "a2" (fst first) = (fst first, false).
Proof.
  intros first.
  assert (Hq : find (Questions.has_id "q1") (questions tables) = Some q1)
    by reflexivity.
  pose proof (second_accept_returns_false
                "asker" (Some "asker") "q1" "a1" "a2" q1 tables 0 None false true
                Hq eq_refl eq_refl eq_refl) as H.
  split; [exact Hq|]. split; [apply H|apply H].
Defined.

Lemma non_author_accept_returns_false_witness :
  Some "B" <> Some (Questions.user_id q1)
  /\ accept_answer (Some "B") "q1" "a1" tables = (tables, false)
  /\ click_accept (Some "B") Ok (QuestionDetail.answer_buttons (Some "B") q1 a1) tables
     = (tables, []).
Proof.
  assert (Hne : Some "B" <> Some (Questions.user_id q1)) by discriminate.
  pose proof (non_author_accept_returns_false
                (Some "B") "q1" "a1" q1 tables a1 Ok eq_refl Hne) as H.
  split; [exact Hne|]. split; apply H.
Defined.

End AcceptanceWitnesses.

(** ** Guards in front of the requests *)

Section Guards.

Import VoteButtons.

Lemma trimmed_empty (s : Js.text) :
  Js.trim s = [] -> Js.nonempty (Js.trim s) = false.
Proof. now intros ->. Qed.

(** C8.  Without a session [handleVote] reports "Authentication required"
    and returns before the delete or upsert: the ledger, the displayed
    count and the recorded vote stay as they are, no callback runs, and
    the only request is the read of the session.  Without a signed-in user
    [handleSubmitAnswer] and the question form's [handleSubmit] report
    the same and issue no request at all. *)
Theorem unauthenticated_calls_are_rejected
    (outcome : Outcome) (p : Props) (voteType : Z) (s : State)
    (votes : list VoteRow) (n : Z) (v : option Z)
    (id : option Js.ident) (q : option Questions.Row) (l : list Answers.Row)
    (text : Js.text) (loading submitting : bool)
    (inserted : AskQuestion.Inserted) (title content : Js.text)
    (tags : list AskQuestion.Tag) (busy : bool) :
  handleVote None outcome p voteType s votes
  = (stop_voting s, votes,
     [Remote AuthGetUser;
      Toast "Authentication required" "Please sign in to vote" Destructive])
  /\ fst (fst (handleVote None outcome p voteType (mkState n v false) votes))
     = mkState n v false
  /\ existsb is_remote_mutation
             (snd (handleVote None outcome p voteType s votes)) = false
  /\ QuestionDetail.handleSubmitAnswer id outcome
       (QuestionDetail.mkPage q l text loading submitting None)
     = (QuestionDetail.mkPage q l text loading submitting None,
        [Toast "Authentication required" "Please sign in to post an answer"
               Destructive])
  /\ AskQuestion.handleSubmit inserted
       (AskQuestion.mkForm title content tags busy None)
     = (AskQuestion.mkForm title content tags busy None,
        [Toast "Authentication required" "Please sign in to ask a question"
               Destructive]).
Proof.
  repeat split.
Qed.

(** C9.  A question whose title or content is empty after trimming, or
    that has no tag selected, and an answer that is empty after trimming,
    are turned down before any request: the form and the page keep their
    state, the event trace holds no request, and a signed-in user is shown
    the validation notice. *)
Theorem invalid_submissions_issue_no_request
    (inserted : AskQuestion.Inserted) (f : AskQuestion.Form)
    (id : option Js.ident) (outcome : Outcome) (pg : QuestionDetail.Page) :
  Spec.invalid_question f ->
  Spec.invalid_answer pg ->
  let rq := AskQuestion.handleSubmit inserted f in
  let ra := QuestionDetail.handleSubmitAnswer id outcome pg in
  fst rq = f
  /\ existsb is_remote (snd rq) = false
  /\ (AskQuestion.user f <> None ->
      snd rq = [Toast "Missing information"
                      "Please provide both a title and description" Destructive]
      \/ snd rq = [Toast "Tags required"
                         "Please add at least one tag to your question"
                         Destructive])
  /\ fst ra = pg
  /\ existsb is_remote (snd ra) = false
  /\ (QuestionDetail.user pg <> None ->
      snd ra = [Toast "Answer required" "Please provide an answer" Destructive]).
Proof.
  intros Hq Ha rq ra.
  assert (Hrq : fst rq = f /\ existsb is_remote (snd rq) = false
                /\ (AskQuestion.user f <> None ->
                    snd rq = [Toast "Missing information"
                                    "Please provide both a title and description"
                                    Destructive]
                    \/ snd rq = [Toast "Tags required"
                                       "Please add at least one tag to your question"
                                       Destructive])).
  { subst rq. unfold AskQuestion.handleSubmit.
    destruct (AskQuestion.user f) as [u|]; [|repeat split; congruence].
    destruct (negb (Js.nonempty (Js.trim (AskQuestion.title f)))
              || negb (Js.nonempty (Js.trim (AskQuestion.content f)))) eqn:E;
      [repeat split; now left|].
    apply orb_false_iff in E as [Et Ec].
    destruct Hq as [Hq|[Hq|Hq]].
    - rewrite (trimmed_empty _ Hq) in Et. discriminate.
    - rewrite (trimmed_empty _ Hq) in Ec. discriminate.
    - rewrite Hq. simpl. repeat split. now right. }
  assert (Hra : fst ra = pg /\ existsb is_remote (snd ra) = false
                /\ (QuestionDetail.user pg <> None ->
                    snd ra = [Toast "Answer required" "Please provide an answer"
                                    Destructive])).
  { subst ra. unfold QuestionDetail.handleSubmitAnswer.
    destruct (QuestionDetail.user pg) as [u|]; [|repeat split; congruence].
    rewrite (trimmed_empty _ Ha). simpl. repeat split. }
  destruct Hrq as (? & ? & ?), Hra as (? & ? & ?). repeat split; assumption.
Qed.

Lemma invalid_submissions_issue_no_request_witness :
  let f := AskQuestion.mkForm [32; 9; 160]%N [60; 112; 62]%N
             [AskQuestion.mkTag "t1" "css" None] false (Some "A") in
  let pg := QuestionDetail.mkPage (Some Scenario.q1) [] [10; 32; 8202]%N
              false false (Some "A") in
  Spec.invalid_question f
  /\ Spec.invalid_answer pg
  /\ fst (AskQuestion.handleSubmit (AskQuestion.NewQuestion "q9") f) = f
  /\ existsb is_remote
        (snd (AskQuestion.handleSubmit (AskQuestion.NewQuestion "q9") f)) = false
  /\ fst (QuestionDetail.handleSubmitAnswer (Some "q1") Ok pg) = pg
  /\ existsb is_remote
        (snd (QuestionDetail.handleSubmitAnswer (Some "q1") Ok pg)) = false.
Proof.
  intros f pg.
  assert (Hf : Spec.invalid_question f) by (left; reflexivity).
  assert (Hp : Spec.invalid_answer pg) by reflexivity.
  destruct (invalid_submissions_issue_no_request
              (AskQuestion.NewQuestion "q9") f (Some "q1") Ok pg Hf Hp)
    as (H1 & H2 & _ & H3 & H4 & _).
  split; [exact Hf|]. split; [exact Hp|].
  split; [exact H1|]. split; [exact H2|]. split; [exact H3|exact H4].
Defined.

End Guards.

(** ** Trimming *)

Section Trimming.

Lemma trim_start_head (s : Js.text) :
  match Js.trim_start s with
  | [] => True
  | c :: _ => Js.is_white_space c = false
  end.
Proof.
  induction s as [|c s IH]; simpl; [exact I|].
  destruct (Js.is_white_space c) eqn:E; [exact IH|exact E].
Qed.

Lemma trim_start_keeps_last (l : Js.text) (c : N) :
  Js.is_white_space c = false ->
  Js.trim_start (l ++ [c]) = Js.trim_start l ++ [c].
Proof.
  intros Hc. induction l as [|x l IH]; simpl.
  - now rewrite Hc.
  - destruct (Js.is_white_space x); [exact IH|reflexivity].
Qed.

Lemma trim_start_fixed (c : N) (s : Js.text) :
  Js.is_white_space c = false -> Js.trim_start (c :: s) = c :: s.
Proof. intros Hc. simpl. now rewrite Hc. Qed.

Lemma last_rev_cons (c d : N) (s : Js.text) : last (rev (c :: s)) d = c.
Proof. simpl. apply last_last. Qed.

(** What [trim] returns has no white space at either end. *)
Lemma trim_trimmed (s : Js.text) : Text.trimmed (Js.trim s).
Proof.
  unfold Js.trim, Js.trim_end.
  pose proof (trim_start_head s) as Hhead.
  destruct (Js.trim_start s) as [|c r]; [exact I|].
  simpl rev. rewrite (trim_start_keeps_last _ _ Hhead), rev_app_distr. simpl.
  split; [exact Hhead|].
  pose proof (trim_start_head (rev r)) as Hlast.
  destruct (Js.trim_start (rev r)) as [|d t] eqn:E; [exact Hhead|].
  simpl rev. rewrite last_last. destruct (rev t); exact Hlast.
Qed.

(** A string without white space at either end is left as it is. *)
Lemma trim_fixed (s : Js.text) : Text.trimmed s -> Js.trim s = s.
Proof.
  destruct s as [|c r]; [reflexivity|]. intros [Hc Hl].
  unfold Js.trim, Js.trim_end. rewrite (trim_start_fixed c r Hc).
  destruct (rev (c :: r)) as [|d t] eqn:E.
  - apply (f_equal (@List.length N)) in E. rewrite length_rev in E. discriminate.
  - assert (Hd : last (c :: r) c = d).
    { replace (c :: r) with (rev (d :: t)) by (rewrite <- E; apply rev_involutive).
      apply last_rev_cons. }
    rewrite trim_start_fixed by (rewrite <- Hd; exact Hl).
    now rewrite <- E, rev_involutive.
Qed.

End Trimming.

(** ** What a cast can and cannot do to the ledger *)

Section LedgerInvariants.

Import VoteButtons.

Lemma filter_filter_implied {A : Type} (f g : A -> bool) (l : list A) :
  (forall x, In x l -> f x = true -> g x = true) ->
  filter f (filter g l) = filter f l.
Proof.
  induction l as [|x l IH]; intros H; [reflexivity|]. simpl.
  assert (IH' : filter f (filter g l) = filter f l)
    by (apply IH; intros y Hy; apply H; now right).
  destruct (f x) eqn:Ef.
  - rewrite (H x (or_introl eq_refl) Ef). simpl. now rewrite Ef, IH'.
  - destruct (g x); simpl; now rewrite ?Ef, IH'.
Qed.

Lemma filter_map_untouched {A : Type} (f : A -> bool) (h : A -> A) (l : list A) :
  (forall x, In x l -> h x = x \/ (f x = false /\ f (h x) = false)) ->
  filter f (map h l) = filter f l.
Proof.
  induction l as [|x l IH]; intros H; [reflexivity|]. simpl.
  rewrite IH by (intros y Hy; apply H; now right).
  destruct (H x (or_introl eq_refl)) as [->|[-> ->]]; reflexivity.
Qed.

Variable u : Js.ident.
Variable p : Props.
Variable voteType : Z.

Lemma mine_owned (r : VoteRow) :
  Votes.mine u (target_column p) (target_value p) r = true -> Votes.owned_by u r = true.
Proof. unfold Votes.mine. intros H. now apply andb_true_iff in H. Qed.

Lemma conflicts_new (r : VoteRow) :
  Votes.conflicts (target_column p) (voteData u voteType p) r
  = Votes.mine u (target_column p) (target_value p) r.
Proof.
  apply conflicts_mine; [apply voteData_user|apply voteData_target].
Qed.

Lemma overwrite_owned (r : VoteRow) :
  Votes.owned_by u (Votes.overwrite (target_column p) (voteData u voteType p) r) = true.
Proof.
  unfold Votes.owned_by.
  destruct (target_column p); simpl; rewrite voteData_user; apply String.eqb_refl.
Qed.

Lemma new_owned : Votes.owned_by u (voteData u voteType p) = true.
Proof. unfold Votes.owned_by. rewrite voteData_user. apply String.eqb_refl. Qed.

(** The rows a call can reach are the acting user's rows on the addressed
    target; what it writes belongs to the acting user. *)
Lemma ledger_step (outcome : Outcome) (s : State) (votes : list VoteRow) :
  let votes' := snd (fst (handleVote (Some u) outcome p voteType s votes)) in
  votes' = votes
  \/ votes' = Votes.delete u (target_column p) (target_value p) votes
  \/ votes' = Votes.upsert (voteData u voteType p) (target_column p) votes.
Proof.
  unfold handleVote.
  destruct (Js.strict_eq (currentUserVote s) voteType), outcome; simpl; auto.
Qed.

(** X1.  Whatever [handleVote] does for user [u], the rows of all other
    users are left exactly as they were, in the same order, and a row that
    was not in the ledger before belongs to [u]. *)
Theorem handleVote_leaves_other_users_rows
    (outcome : Outcome) (s : State) (votes : list VoteRow) :
  let votes' := snd (fst (handleVote (Some u) outcome p voteType s votes)) in
  filter (fun r => negb (Votes.owned_by u r)) votes'
  = filter (fun r => negb (Votes.owned_by u r)) votes
  /\ (forall r, In r votes' -> ~ In r votes -> user_id r = u).
Proof.
  intros votes'.
  destruct (ledger_step outcome s votes) as [H|[H|H]]; fold votes' in H; rewrite H.
  - split; [reflexivity|]. intros r Hin Hnot. contradiction.
  - split.
    + unfold Votes.delete. apply filter_filter_implied.
      intros r _ Hr.
      destruct (Votes.mine u (target_column p) (target_value p) r) eqn:E;
        [|reflexivity].
      apply mine_owned in E. rewrite E in Hr. discriminate.
    + intros r Hin Hnot. unfold Votes.delete in Hin.
      apply filter_In in Hin as [Hin _]. contradiction.
  - unfold Votes.upsert.
    destruct (existsb (Votes.conflicts (target_column p) (voteData u voteType p))
                      votes).
    + split.
      * unfold Votes.overwrite_conflicting. apply filter_map_untouched.
        intros r _. rewrite conflicts_new.
        destruct (Votes.mine u (target_column p) (target_value p) r) eqn:E;
          [right|now left].
        now rewrite (mine_owned r E), overwrite_owned.
      * intros r Hin Hnot. unfold Votes.overwrite_conflicting in Hin.
        apply in_map_iff in Hin as (r0 & Hr0 & Hin0).
        destruct (Votes.conflicts (target_column p) (voteData u voteType p) r0).
        -- subst r. destruct (target_column p); simpl; apply voteData_user.
        -- subst r0. contradiction.
    + split.
      * rewrite filter_app. simpl. rewrite new_owned. simpl. apply app_nil_r.
      * intros r Hin Hnot. apply in_app_iff in Hin as [Hin|[<-|[]]];
          [contradiction|apply voteData_user].
Qed.

(** X2.  A user who has at most one live row on the addressed target before
    a call has at most one after it, whichever branch the call takes and
    whatever the component believes the current vote to be. *)
Theorem handleVote_keeps_one_row_per_user
    (outcome : Outcome) (s : State) (votes : list VoteRow) :
  (List.length (Votes.types_of u (target_column p) (target_value p) votes) <= 1)%nat ->
  (List.length
     (Votes.types_of u (target_column p) (target_value p)
        (snd (fst (handleVote (Some u) outcome p voteType s votes)))) <= 1)%nat.
Proof.
  intros Hone.
  destruct (ledger_step outcome s votes) as [H|[H|H]]; rewrite H; clear H.
  - exact Hone.
  - rewrite delete_types_of. simpl. lia.
  - pose proof (voteData_user u p voteType) as Hu.
    pose proof (voteData_target u p voteType) as Ht.
    destruct (Votes.types_of u (target_column p) (target_value p) votes) as [|x l] eqn:E.
    + rewrite (upsert_fresh u _ _ _ Hu Ht votes E), types_of_app, E.
      unfold Votes.types_of. simpl.
      destruct (Votes.mine u (target_column p) (target_value p)
                  (voteData u voteType p)); simpl; lia.
    + rewrite (upsert_existing u _ _ _ Hu Ht votes) by (rewrite E; discriminate).
      rewrite (replaced_types_of u _ _ _ Hu Ht), E, length_map. exact Hone.
Qed.

Lemma conflict_other_column (r : VoteRow) :
  Votes.mine u (target_column p) (target_value p) r = true ->
  Spec.one_target r = true ->
  match (target_column p) with
  | question_id_col => answer_id r = None
  | answer_id_col => question_id r = None
  end.
Proof.
  unfold Votes.mine, Votes.eq_filter, Spec.one_target. intros H.
  apply andb_true_iff in H as [_ H]. revert H.
  destruct (target_value p); [|discriminate].
  destruct (target_column p); simpl; destruct (question_id r), (answer_id r);
    try discriminate; reflexivity.
Qed.

(** X3.  When the component has a non-empty question or answer id, a
    ledger in which every row sets exactly one of [question_id] and
    [answer_id] is still such a ledger after the call. *)
Theorem handleVote_keeps_one_target_per_row
    (outcome : Outcome) (s : State) (votes : list VoteRow) :
  Js.truthy (target_value p) = true ->
  Forall (fun r => Spec.one_target r = true) votes ->
  Forall (fun r => Spec.one_target r = true)
         (snd (fst (handleVote (Some u) outcome p voteType s votes))).
Proof.
  intros Htruthy Hall.
  pose proof (voteData_one_target u p voteType Htruthy) as Hnew.
  destruct (ledger_step outcome s votes) as [H|[H|H]]; rewrite H; clear H.
  - exact Hall.
  - unfold Votes.delete. apply Forall_forall. intros r Hin.
    apply filter_In in Hin as [Hin _]. revert r Hin. now apply Forall_forall.
  - unfold Votes.upsert.
    destruct (existsb (Votes.conflicts (target_column p) (voteData u voteType p))
                      votes).
    + unfold Votes.overwrite_conflicting. apply Forall_forall. intros r Hin.
      apply in_map_iff in Hin as (r0 & Hr0 & Hin0).
      pose proof (proj1 (Forall_forall _ _) Hall r0 Hin0) as H0. simpl in H0.
      rewrite conflicts_new in Hr0.
      destruct (Votes.mine u (target_column p) (target_value p) r0) eqn:E;
        [|now rewrite <- Hr0].
      pose proof (conflict_other_column r0 E H0) as Hother.
      subst r. revert Hnew Hother.
      unfold Spec.one_target, Votes.overwrite, target_column, voteData.
      destruct (Js.truthy (questionId p)); simpl; intros Hn ->;
        [destruct (questionId p)|destruct (answerId p)];
        try reflexivity; discriminate.
    + apply Forall_app. split; [exact Hall|]. constructor; [exact Hnew|constructor].
Qed.

(** When the component carries a non-empty question id, no row that
    references an answer is touched. *)
Lemma question_target_leaves_answer_votes
    (outcome : Outcome) (s : State) (votes : list VoteRow) (v : option Js.ident) :
  Js.truthy (questionId p) = true ->
  Forall (fun r => Spec.one_target r = true) votes ->
  Votes.types_on answer_id_col v
    (snd (fst (handleVote (Some u) outcome p voteType s votes)))
  = Votes.types_on answer_id_col v votes.
Proof.
  intros Hq Hall.
  assert (Hc : target_column p = question_id_col)
    by (unfold target_column; now rewrite Hq).
  assert (Hnone : forall r, In r votes ->
                            Votes.mine u (target_column p) (target_value p) r = true ->
                            Votes.eq_filter answer_id_col v r = false).
  { intros r Hin Hm.
    pose proof (proj1 (Forall_forall _ _) Hall r Hin) as H1. simpl in H1.
    pose proof (conflict_other_column r Hm H1) as H. rewrite Hc in H.
    unfold Votes.eq_filter. simpl. rewrite H. now destruct v. }
  unfold Votes.types_on. f_equal.
  destruct (ledger_step outcome s votes) as [H|[H|H]]; rewrite H; clear H.
  - reflexivity.
  - unfold Votes.delete. apply filter_filter_implied.
    intros r Hin Hr.
    destruct (Votes.mine u (target_column p) (target_value p) r) eqn:E;
      [|reflexivity].
    rewrite (Hnone r Hin E) in Hr. discriminate.
  - unfold Votes.upsert.
    destruct (existsb (Votes.conflicts (target_column p) (voteData u voteType p))
                      votes).
    + unfold Votes.overwrite_conflicting. apply filter_map_untouched.
      intros r Hin. rewrite conflicts_new.
      destruct (Votes.mine u (target_column p) (target_value p) r) eqn:E;
        [right|now left].
      split; [now apply Hnone|].
      pose proof (Hnone r Hin E) as Hr. revert Hr.
      unfold Votes.eq_filter. rewrite Hc. simpl. tauto.
    + rewrite filter_app. simpl.
      assert (Hn : Votes.eq_filter answer_id_col v (voteData u voteType p) = false).
      { unfold Votes.eq_filter, voteData. rewrite Hq. simpl. now destruct v. }
      rewrite Hn. apply app_nil_r.
Qed.

End LedgerInvariants.

(** ** Clicks on the vote arrows of the question page *)

Section PageClicks.

Import VoteButtons QuestionDetail Clicks.

Lemma arrow_nonzero (up : bool) : Render.arrow up <> 0.
Proof. destruct up; discriminate. Qed.

Lemma loaded_initial (pg : Page) (q : Questions.Row) :
  question pg = Some q -> loaded pg (initial (question_buttons q)).
Proof. intros Hq. exists q. repeat split. exact Hq. Qed.

(** One click on a loaded page: the request is never a delete, the page is
    loaded again, and a cast that went through has been sent as an upsert
    and has moved the displayed count by the arrow's value. *)
Lemma vote_click_loaded (c : Click) (pg : Page) (s : State)
    (votes : list VoteRow) (q : Questions.Row) :
  question pg = Some q ->
  voteCount s = Questions.vote_count q ->
  currentUserVote s = None ->
  let r := vote_click c pg s votes in
  loaded (fst (fst (fst r))) (snd (fst (fst r)))
  /\ existsb is_delete (snd r) = false
  /\ match session c, outcome c with
     | Some u, Ok =>
         question (fst (fst (fst r)))
         = Some (Questions.set_vote_count
                   (Questions.vote_count q + Render.arrow (up c)) q)
         /\ snd (fst r)
            = Votes.upsert (voteData u (Render.arrow (up c)) (question_buttons q))
                           (target_column (question_buttons q)) votes
     | _, _ => fst (fst (fst r)) = pg /\ snd (fst r) = votes
     end.
Proof.
  intros Hq Hcount Hnone r. subst r.
  unfold vote_click, vote_on_question, handleVote. rewrite Hq, Hnone.
  destruct (session c) as [u|]; [destruct (outcome c)|]; simpl; rewrite ?Hq; simpl.
  - unfold rerender, deps_changed; simpl.
    pose proof (arrow_nonzero (up c)) as Hnz.
    destruct (Z.eqb_spec (Questions.vote_count q)
                (voteCount s + (Render.arrow (up c) - 0))); [lia|]. simpl.
    split; [eexists; repeat split|].
    split; [reflexivity|]. split; [|reflexivity].
    rewrite Hcount. do 2 f_equal. lia.
  - unfold rerender, deps_changed; simpl. rewrite Z.eqb_refl. simpl.
    split; [exists q; repeat split; assumption|]. repeat split.
  - unfold rerender, deps_changed; simpl. rewrite Z.eqb_refl. simpl.
    split; [exists q; repeat split; assumption|]. repeat split.
Qed.

(** X4.  From the moment the question page has loaded, no sequence of
    clicks on the two vote arrows, by whatever sessions and with whatever
    answers from the backend, ever sends a delete to the votes table: a
    vote cast from the page cannot be taken back from the page. *)
Theorem question_page_never_deletes_a_vote
    (clicks : list Click) (pg : Page) (s : State) (votes : list VoteRow) :
  loaded pg s ->
  let r := vote_clicks clicks pg s votes in
  existsb is_delete (snd r) = false
  /\ loaded (fst (fst (fst r))) (snd (fst (fst r))).
Proof.
  revert pg s votes.
  induction clicks as [|c clicks IH]; intros pg s votes Hl; [now split|].
  destruct Hl as (q & Hq & Hcount & Hnone).
  pose proof (vote_click_loaded c pg s votes q Hq Hcount Hnone) as (Hl1 & Hd1 & _).
  cbn [vote_clicks].
  destruct (vote_click c pg s votes) as [[[pg1 s1] votes1] events1].
  specialize (IH pg1 s1 votes1 Hl1).
  destruct (vote_clicks clicks pg1 s1 votes1) as [[[pg2 s2] votes2] events2].
  simpl in *. destruct IH as [Hd2 Hl2].
  split; [|exact Hl2].
  rewrite existsb_app, Hd1, Hd2. reflexivity.
Qed.

Lemma question_buttons_target (q : Questions.Row) :
  Questions.id q <> "" ->
  target_column (question_buttons q) = question_id_col
  /\ target_value (question_buttons q) = Some (Questions.id q).
Proof.
  intros Hid. unfold target_column, target_value, Js.or_else, question_buttons.
  simpl. destruct (String.eqb_spec (Questions.id q) ""); [contradiction|].
  now split.
Qed.

(** Casting on top of one's own vote of the same type, from the page. *)
Lemma repeated_cast_on_page (n : nat) (u : Js.ident) (up : bool) (pg : Page)
    (s : State) (votes : list VoteRow) (q : Questions.Row) :
  question pg = Some q ->
  voteCount s = Questions.vote_count q ->
  currentUserVote s = None ->
  Questions.id q <> "" ->
  Votes.types_of u question_id_col (Some (Questions.id q)) votes = [Render.arrow up] ->
  let r := vote_clicks (repeat (mkClick (Some u) Ok up) n) pg s votes in
  option_map Questions.vote_count (question (fst (fst (fst r))))
  = Some (Questions.vote_count q + Z.of_nat n * Render.arrow up)
  /\ Votes.types_of u question_id_col (Some (Questions.id q)) (snd (fst r))
     = [Render.arrow up]
  /\ Votes.sum question_id_col (Some (Questions.id q)) (snd (fst r))
     = Votes.sum question_id_col (Some (Questions.id q)) votes.
Proof.
  revert pg s votes q.
  induction n as [|n IH]; intros pg s votes q Hq Hcount Hnone Hid Hmine.
  - simpl. rewrite Hq. simpl. repeat split; [f_equal; lia|exact Hmine].
  - cbn [repeat vote_clicks].
    pose proof (vote_click_loaded (mkClick (Some u) Ok up) pg s votes q
                  Hq Hcount Hnone) as (Hl1 & _ & Hq1 & Hv1).
    destruct (vote_click (mkClick (Some u) Ok up) pg s votes)
      as [[[pg1 s1] votes1] events1].
    simpl in Hl1, Hq1, Hv1.
    destruct Hl1 as (q1 & Hq1' & Hcount1 & Hnone1).
    rewrite Hq1 in Hq1'. injection Hq1' as <-.
    destruct (question_buttons_target q Hid) as [Hc Ht].
    rewrite Hc in Hv1.
    pose proof (voteData_user u (question_buttons q) (Render.arrow up)) as Hu.
    pose proof (voteData_target u (question_buttons q) (Render.arrow up)) as Hnt.
    rewrite Hc, Ht in Hnt.
    assert (Hne : Votes.types_of u question_id_col (Some (Questions.id q)) votes <> [])
      by (rewrite Hmine; discriminate).
    rewrite (upsert_existing u _ _ _ Hu Hnt votes Hne) in Hv1.
    assert (Hmine1 : Votes.types_of u question_id_col (Some (Questions.id q)) votes1
                     = [Render.arrow up]).
    { rewrite Hv1, (replaced_types_of u _ _ _ Hu Hnt), Hmine. simpl.
      now rewrite voteData_type. }
    assert (Hsum1 : Votes.sum question_id_col (Some (Questions.id q)) votes1
                    = Votes.sum question_id_col (Some (Questions.id q)) votes).
    { rewrite Hv1, (replaced_sum u _ _ _ Hu Hnt), Hmine, voteData_type. simpl. lia. }
    specialize (IH pg1 s1 votes1
                   (Questions.set_vote_count
                      (Questions.vote_count q + Render.arrow up) q)
                   Hq1 Hcount1 Hnone1 Hid Hmine1).
    destruct (vote_clicks (repeat (mkClick (Some u) Ok up) n) pg1 s1 votes1)
      as [[[pg2 s2] votes2] events2].
    cbn [fst snd Questions.id Questions.vote_count Questions.set_vote_count] in *.
    destruct IH as (IHc & IHm & IHs).
    repeat split; [|exact IHm|now rewrite IHs].
    rewrite IHc. f_equal. rewrite Nat2Z.inj_succ. destruct up; simpl; lia.
Qed.

(** X5.  A user without a vote on the question who clicks the same arrow
    [n + 1] times in a row, every request succeeding, ends with exactly one
    live row of that type, the ledger's sum moved once by the arrow's value,
    and the count displayed on the page moved [n + 1] times. *)
Theorem repeated_clicks_drift_from_ledger
    (n : nat) (u : Js.ident) (up : bool) (pg : Page) (s : State)
    (votes : list VoteRow) (q : Questions.Row) :
  question pg = Some q ->
  voteCount s = Questions.vote_count q ->
  currentUserVote s = None ->
  Questions.id q <> "" ->
  Votes.types_of u question_id_col (Some (Questions.id q)) votes = [] ->
  let r := vote_clicks (repeat (mkClick (Some u) Ok up) (S n)) pg s votes in
  option_map Questions.vote_count (question (fst (fst (fst r))))
  = Some (Questions.vote_count q + Z.of_nat (S n) * Render.arrow up)
  /\ Votes.types_of u question_id_col (Some (Questions.id q)) (snd (fst r))
     = [Render.arrow up]
  /\ Votes.sum question_id_col (Some (Questions.id q)) (snd (fst r))
     = Votes.sum question_id_col (Some (Questions.id q)) votes + Render.arrow up.
Proof.
  intros Hq Hcount Hnone Hid Hmine.
  cbn [repeat vote_clicks].
  pose proof (vote_click_loaded (mkClick (Some u) Ok up) pg s votes q
                Hq Hcount Hnone) as (Hl1 & _ & Hq1 & Hv1).
  destruct (vote_click (mkClick (Some u) Ok up) pg s votes)
    as [[[pg1 s1] votes1] events1].
  simpl in Hl1, Hq1, Hv1.
  destruct Hl1 as (q1 & Hq1' & Hcount1 & Hnone1).
  rewrite Hq1 in Hq1'. injection Hq1' as <-.
  destruct (question_buttons_target q Hid) as [Hc Ht].
  rewrite Hc in Hv1.
  pose proof (voteData_user u (question_buttons q) (Render.arrow up)) as Hu.
  pose proof (voteData_target u (question_buttons q) (Render.arrow up)) as Hnt.
  rewrite Hc, Ht in Hnt.
  rewrite (upsert_fresh u _ _ _ Hu Hnt votes Hmine) in Hv1.
  destruct (voteData_counts u (question_buttons q) (Questions.id q) Ht
              (Render.arrow up)) as [Hs Hm].
  rewrite Hc, Ht in Hs, Hm.
  assert (Hmine1 : Votes.types_of u question_id_col (Some (Questions.id q)) votes1
                   = [Render.arrow up])
    by (now rewrite Hv1, types_of_app, Hmine, Hm).
  assert (Hsum1 : Votes.sum question_id_col (Some (Questions.id q)) votes1
                  = Votes.sum question_id_col (Some (Questions.id q)) votes
                    + Render.arrow up)
    by (now rewrite Hv1, sum_app, Hs).
  pose proof (repeated_cast_on_page n u up pg1 s1 votes1
                (Questions.set_vote_count (Questions.vote_count q + Render.arrow up) q)
                Hq1 Hcount1 Hnone1 Hid Hmine1) as H.
  destruct (vote_clicks (repeat (mkClick (Some u) Ok up) n) pg1 s1 votes1)
    as [[[pg2 s2] votes2] events2].
  cbn [fst snd Questions.id Questions.vote_count Questions.set_vote_count] in *.
  destruct H as (Hc2 & Hm2 & Hs2).
  repeat split; [|exact Hm2|now rewrite Hs2].
  rewrite Hc2. f_equal. rewrite Nat2Z.inj_succ. destruct up; simpl; lia.
Qed.

End PageClicks.

(** ** Votes cast next to an answer *)

Section AnswerVotes.

Import VoteButtons QuestionDetail.

Lemma answer_onVoteChange_fold (a : Js.ident) (events : list Event) (pg : Page) :
  let pg' := fold_left (answer_onVoteChange a) events pg in
  question pg' = question pg
  /\ user pg' = user pg
  /\ newAnswer pg' = newAnswer pg
  /\ map Answers.id (answers pg') = map Answers.id (answers pg)
  /\ filter (fun x => negb (Answers.has_id a x)) (answers pg')
     = filter (fun x => negb (Answers.has_id a x)) (answers pg).
Proof.
  revert pg. induction events as [|e events IH]; intros pg; [now repeat split|].
  simpl. specialize (IH (answer_onVoteChange a pg e)).
  destruct IH as (Hq & Hu & Hn & Hids & Hrest).
  cbv zeta. rewrite Hq, Hu, Hn, Hids, Hrest.
  destruct e; try (now repeat split). simpl.
  repeat split.
  - rewrite map_map. apply map_ext. intros x.
    destruct (Answers.has_id a x); reflexivity.
  - apply filter_map_untouched. intros x _.
    destruct (Answers.has_id a x) eqn:E; [right|now left].
    unfold Answers.has_id in *. simpl. now rewrite E.
Qed.

(** X6.  On a page whose question has a non-empty id, a click on a vote
    arrow next to an answer leaves every row of the ledger that references
    an answer as it was: whatever the answer, the session and the believed
    current vote, the votes recorded for answers do not change. *)
Theorem vote_on_answer_leaves_answer_votes
    (session : option Js.ident) (outcome : Outcome) (a : Js.ident) (voteType : Z)
    (pg : Page) (s : State) (votes : list VoteRow) (v : option Js.ident) :
  (forall q, question pg = Some q -> Questions.id q <> "") ->
  Forall (fun r => Spec.one_target r = true) votes ->
  Votes.types_on answer_id_col v
    (snd (fst (vote_on_answer session outcome a voteType pg s votes)))
  = Votes.types_on answer_id_col v votes.
Proof.
  intros Hid Hall. unfold vote_on_answer.
  destruct (question pg) as [q|] eqn:Hq; [|reflexivity].
  destruct (find (Answers.has_id a) (answers pg)) as [row|]; [|reflexivity].
  assert (Htruthy : Js.truthy (questionId (answer_buttons (user pg) q row)) = true).
  { simpl. destruct (String.eqb_spec (Questions.id q) ""); [|reflexivity].
    now elim (Hid q eq_refl). }
  destruct session as [u|].
  - pose proof (question_target_leaves_answer_votes
                  u (answer_buttons (user pg) q row) voteType outcome s votes v
                  Htruthy Hall) as H.
    destruct (handleVote (Some u) outcome (answer_buttons (user pg) q row)
                voteType s votes) as [[s' votes'] events].
    exact H.
  - reflexivity.
Qed.

(** X7.  A click on a vote arrow next to answer [a] leaves the question,
    the ids of the listed answers and their order as they are, and changes
    no answer other than those with id [a]. *)
Theorem vote_on_answer_keeps_the_list
    (session : option Js.ident) (outcome : Outcome) (a : Js.ident) (voteType : Z)
    (pg : Page) (s : State) (votes : list VoteRow) :
  let pg' := fst (fst (fst (vote_on_answer session outcome a voteType pg s votes))) in
  question pg' = question pg
  /\ map Answers.id (answers pg') = map Answers.id (answers pg)
  /\ filter (fun x => negb (Answers.has_id a x)) (answers pg')
     = filter (fun x => negb (Answers.has_id a x)) (answers pg).
Proof.
  unfold vote_on_answer. cbv zeta.
  destruct (question pg) as [q|] eqn:Hq0;
    [|cbn [fst snd]; rewrite Hq0; now repeat split].
  destruct (find (Answers.has_id a) (answers pg)) as [row|];
    [|cbn [fst snd]; rewrite Hq0; now repeat split].
  destruct (handleVote session outcome (answer_buttons (user pg) q row)
              voteType s votes) as [[s' votes'] events].
  cbn [fst snd].
  destruct (answer_onVoteChange_fold a events pg) as (Hq & _ & _ & Hids & Hrest).
  rewrite Hq, Hq0. now repeat split.
Qed.

End AnswerVotes.

(** ** The answer list and the answer form *)

Section AnswerPage.

Import VoteButtons QuestionDetail.

(** X8.  When some answer of the question is accepted, the answer listed
    first is an accepted one. *)
Theorem accepted_answer_is_listed_first
    (id : option Js.ident) (rows : list Answers.Row) (a : Answers.Row) :
  In a rows ->
  Answers.of_question id a = true ->
  Answers.is_accepted a = true ->
  exists first rest,
    select_answers id rows = first :: rest
    /\ Answers.is_accepted first = true.
Proof.
  intros Hin Hq Hacc.
  assert (Hl : In a (select_answers id rows)).
  { apply (Permutation_in a (Permutation_sym (order_permutation _))).
    apply filter_In. now split. }
  pose proof (order_sorted (filter (Answers.of_question id) rows)) as Hs.
  fold (select_answers id rows) in Hs.
  destruct (select_answers id rows) as [|first rest]; [contradiction|].
  exists first, rest. split; [reflexivity|].
  destruct Hl as [->|Hl]; [exact Hacc|].
  apply StronglySorted_inv in Hs as [_ Hall].
  pose proof (proj1 (Forall_forall _ _) Hall a Hl) as H.
  destruct H as [[H _]|[H _]]; [exact H|now rewrite H].
Qed.

(** X9.  A signed-in user who submits an answer that is not blank sends
    exactly one write: the insert of the trimmed text, which has no white
    space at either end.  When the insert succeeds the draft is cleared;
    when it fails the draft is kept and no refetch is sent. *)
Theorem handleSubmitAnswer_sends_trimmed_text
    (id : option Js.ident) (outcome : Outcome) (pg : Page) (u : Js.ident) :
  user pg = Some u ->
  Js.trim (newAnswer pg) <> [] ->
  let r := handleSubmitAnswer id outcome pg in
  filter is_remote_mutation (snd r)
  = [Remote (AnswersInsert (Js.trim (newAnswer pg)) id u)]
  /\ Text.trimmed (Js.trim (newAnswer pg))
  /\ submitting (fst r) = false
  /\ match outcome with
     | Ok => newAnswer (fst r) = []
             /\ In (Remote (AnswersSelect id)) (snd r)
     | Failed _ => newAnswer (fst r) = newAnswer pg
                   /\ filter is_remote (snd r)
                      = [Remote (AnswersInsert (Js.trim (newAnswer pg)) id u)]
     end.
Proof.
  intros Hu Hne r. subst r. unfold handleSubmitAnswer. rewrite Hu.
  destruct (Js.trim (newAnswer pg)) as [|c t] eqn:E; [contradiction|].
  pose proof (trim_trimmed (newAnswer pg)) as Ht. rewrite E in Ht.
  destruct outcome; simpl; repeat split; try apply Ht.
  right; right; left; reflexivity.
Qed.

(** X10.  A click on the accept button next to an answer sends the
    [accept_answer] request only when the page's user is the author of the
    question, the question has no accepted answer and the answer is not
    accepted; the request then names the page's question and that answer. *)
Theorem accept_request_needs_the_author
    (requester : option Js.ident) (outcome : Outcome) (q : Questions.Row)
    (a : Answers.Row) (t : Tables) (request : Request) :
  In (Remote request)
     (snd (click_accept requester outcome (answer_buttons requester q a) t)) ->
  requester = Some (Questions.user_id q)
  /\ Js.truthy (Questions.accepted_answer_id q) = false
  /\ Answers.is_accepted a = false
  /\ request = RpcAcceptAnswer (Questions.id q) (Answers.id a).
Proof.
  unfold click_accept, accept_disabled, answer_buttons, may_accept. simpl.
  destruct (Js.same_ident requester (Some (Questions.user_id q))) eqn:Hsame;
    simpl; [|intros []].
  destruct (Js.truthy (Questions.accepted_answer_id q)); simpl; [intros []|].
  destruct (Answers.is_accepted a); simpl; [intros []|].
  apply same_ident_eq in Hsame. intros Hin.
  repeat split; [exact Hsame|].
  revert Hin. unfold handleAccept. simpl.
  destruct (negb (negb (Answers.id a =? "")%string)
            || negb (negb (Questions.id q =? "")%string)); [intros []|].
  assert (Hfirst : forall rest,
             (forall e, In e rest -> is_remote e = false) ->
             In (Remote request)
                (Remote (RpcAcceptAnswer (Questions.id q) (Answers.id a)) :: rest) ->
             request = RpcAcceptAnswer (Questions.id q) (Answers.id a)).
  { intros rest Hrest [H|H]; [now injection H|].
    apply Hrest in H. discriminate. }
  destruct outcome.
  - destruct (accept_answer requester (Questions.id q) (Answers.id a) t) as [t' data].
    destruct data; cbn [snd]; apply Hfirst;
      intros e He; repeat (destruct He as [<-|He]; [reflexivity|]); contradiction.
  - cbn [snd]. apply Hfirst.
    intros e He; repeat (destruct He as [<-|He]; [reflexivity|]); contradiction.
Qed.

End AnswerPage.

(** ** The question form *)

Section QuestionForm.

Import AskQuestion.

(** X11.  When the submit button of the question form is enabled and a
    user is signed in, [handleSubmit] sends the insert of the trimmed title
    and content.  If the insert returns the new row, one tag link per
    selected tag follows, in the order of the selection and each for the new
    question, and the page navigates to the new question; if the insert
    fails, no tag link is sent and the page does not navigate. *)
Theorem handleSubmit_links_every_tag_after_the_insert
    (outcome : Inserted) (f : Form) (u : Js.ident) :
  user f = Some u ->
  Render.post_question_disabled f = false ->
  let r := handleSubmit outcome f in
  let insert := Remote (QuestionsInsert (Js.trim (title f)) (Js.trim (content f)) u) in
  Text.trimmed (Js.trim (title f)) /\ Js.trim (title f) <> []
  /\ Text.trimmed (Js.trim (content f)) /\ Js.trim (content f) <> []
  /\ match outcome with
     | NewQuestion q =>
         filter is_remote (snd r)
         = insert :: map (fun tag => Remote (QuestionTagsInsert q (tag_id tag)))
                         (selectedTags f)
         /\ In (Navigate q) (snd r)
     | InsertFailed _ =>
         filter is_remote (snd r) = [insert]
         /\ forall q, ~ In (Navigate q) (snd r)
     end.
Proof.
  intros Hu Hen r insert. subst r insert.
  unfold Render.post_question_disabled in Hen.
  apply orb_false_iff in Hen as [Hen Htags].
  apply orb_false_iff in Hen as [Hen Hcontent].
  apply orb_false_iff in Hen as [_ Htitle].
  split; [apply trim_trimmed|].
  split; [intros E; rewrite E in Htitle; discriminate|].
  split; [apply trim_trimmed|].
  split; [intros E; rewrite E in Hcontent; discriminate|].
  unfold handleSubmit. rewrite Hu, Htitle, Hcontent, Htags. simpl.
  destruct outcome as [q|message]; simpl.
  - split.
    + f_equal. rewrite filter_app. simpl. rewrite app_nil_r.
      clear Htags. induction (selectedTags f) as [|tag l IH]; simpl;
        [reflexivity|now rewrite IH].
    + right. apply in_or_app. right. right. left. reflexivity.
  - split; [reflexivity|]. intros q [H|[H|[H|[]]]]; discriminate.
Qed.

End QuestionForm.

(** ** The tag input *)

Section TagSelection.

Import TagInput.

Variable toLowerCase : Js.text -> Js.text.

(** X12.  Pressing Enter never removes or reorders a selected tag: the
    selection stays as it is or gains one tag at its end, the row that the
    lookup found or, when it found none, the row that the insert returned.
    An insert is sent only when the lookup found nothing, and nothing at all
    is sent or changed when the trimmed input is blank or equals, letter case
    aside, the name of a selected tag. *)
Theorem enter_appends_at_most_one_tag
    (lookup created : option Tag) (selectedTags : list Tag) (s : State) :
  let r := handleKeyDown toLowerCase "Enter" lookup created selectedTags s in
  (exists extra,
      fst (fst r) = selectedTags ++ extra
      /\ (List.length extra <= 1)%nat
      /\ forall tag, In tag extra ->
                     lookup = Some tag \/ (lookup = None /\ created = Some tag))
  /\ (forall n, In (TagsInsert n) (snd r) -> lookup = None)
  /\ (Js.trim (inputValue s) = []
      \/ selected_name toLowerCase (Js.trim (inputValue s)) selectedTags = true ->
      r = (selectedTags, s, [])).
Proof.
  unfold handleKeyDown. simpl.
  destruct (Js.nonempty (Js.trim (inputValue s))) eqn:Hne.
  - unfold addTag.
    destruct (negb (Js.nonempty (Js.trim (Js.trim (inputValue s))))
              || selected_name toLowerCase (Js.trim (inputValue s)) selectedTags)
      eqn:Hguard.
    + repeat split.
      * exists []. rewrite app_nil_r. repeat split; [simpl; lia|intros tag []].
      * intros n [].
    + apply orb_false_iff in Hguard as [_ Hsel].
      destruct lookup as [tag|]; [|destruct created as [tag|]]; simpl.
      * repeat split.
        -- exists [tag]. repeat split; [simpl; lia|].
           intros t [<-|[]]. now left.
        -- intros n [H|[]]. discriminate.
        -- intros [H|H]; [rewrite H in Hne; discriminate|congruence].
      * repeat split.
        -- exists [tag]. repeat split; [simpl; lia|].
           intros t [<-|[]]. now right.
        -- intros [H|H]; [rewrite H in Hne; discriminate|congruence].
      * repeat split.
        -- exists []. rewrite app_nil_r. repeat split; [simpl; lia|intros t []].
        -- intros [H|H]; [rewrite H in Hne; discriminate|congruence].
  - repeat split.
    + exists []. rewrite app_nil_r. repeat split; [simpl; lia|intros tag []].
    + intros n [].
Qed.

Lemma removeTag_absent (i : Js.ident) (l : list Tag) :
  ~ In i (map id l) -> removeTag i l = l.
Proof.
  induction l as [|t l IH]; intros H; [reflexivity|]. simpl.
  unfold has_id at 1.
  destruct (String.eqb_spec (id t) i) as [E|E].
  - elim H. now left.
  - simpl. f_equal. apply IH. intros Hin. apply H. now right.
Qed.

Lemma selected_id_In (l : list Tag) (tag : Tag) :
  selected_id l tag = true <-> In (id tag) (map id l).
Proof.
  unfold selected_id. rewrite existsb_exists. split.
  - intros (t & Hin & Ht). apply String.eqb_eq in Ht. rewrite <- Ht.
    now apply in_map.
  - intros Hin. apply in_map_iff in Hin as (t & Ht & Hin).
    exists t. split; [exact Hin|]. now apply String.eqb_eq.
Qed.

(** X13.  Removing a tag undoes picking it: when no selected tag has the id
    of the picked suggestion, picking it and then removing that id gives back
    the selection as it was. *)
Theorem removeTag_undoes_pick_suggestion
    (tag : Tag) (selectedTags : list Tag) (s : State) :
  selected_id selectedTags tag = false ->
  removeTag (id tag) (fst (pick_suggestion tag selectedTags s)) = selectedTags.
Proof.
  intros Hsel. simpl. unfold removeTag. rewrite filter_app. simpl.
  unfold has_id at 2. rewrite String.eqb_refl. simpl. rewrite app_nil_r.
  apply removeTag_absent. intros Hin. apply selected_id_In in Hin. congruence.
Qed.

(** X14.  With distinct ids in the selection and an empty input, Backspace
    removes the last selected tag and nothing else, sends nothing and leaves
    the input state alone; on an empty selection it does nothing. *)
Theorem backspace_removes_the_last_tag
    (lookup created : option Tag) (selectedTags : list Tag) (s : State) :
  NoDup (map id selectedTags) ->
  inputValue s = [] ->
  handleKeyDown toLowerCase "Backspace" lookup created selectedTags s
  = (removelast selectedTags, s, []).
Proof.
  intros Hnodup Hempty. unfold handleKeyDown. simpl. rewrite Hempty. simpl.
  induction selectedTags as [|t l _] using rev_ind; [reflexivity|].
  rewrite length_app, Nat.add_sub. simpl.
  replace (0 <? List.length l + 1)%nat with true
    by (symmetry; apply Nat.ltb_lt; lia).
  rewrite nth_error_app2, Nat.sub_diag by lia. simpl.
  rewrite removelast_last. f_equal. f_equal.
  unfold removeTag. rewrite filter_app. simpl.
  unfold has_id at 2. rewrite String.eqb_refl. simpl. rewrite app_nil_r.
  apply removeTag_absent.
  rewrite map_app in Hnodup. simpl in Hnodup.
  apply NoDup_remove_2 in Hnodup. now rewrite app_nil_r in Hnodup.
Qed.

(** X15.  No suggestion stored by [fetchTagSuggestions] has the id of a
    selected tag, every one of them is a row the backend returned, and
    picking one keeps the ids of the selection distinct. *)
Theorem suggestions_skip_selected_tags
    (rows selectedTags : list Tag) (s : State) (tag : Tag) :
  NoDup (map id selectedTags) ->
  In tag (suggestions (fetchTagSuggestions (Some rows) selectedTags s)) ->
  In tag rows
  /\ ~ In (id tag) (map id selectedTags)
  /\ NoDup (map id (fst (pick_suggestion tag selectedTags
                           (fetchTagSuggestions (Some rows) selectedTags s)))).
Proof.
  intros Hnodup Hin. simpl in Hin. apply filter_In in Hin as [Hin Hsel].
  assert (Hnot : ~ In (id tag) (map id selectedTags)).
  { intros H. apply selected_id_In in H. rewrite H in Hsel. discriminate. }
  repeat split; [exact Hin|exact Hnot|].
  simpl. rewrite map_app. simpl.
  apply NoDup_app; [exact Hnodup|repeat constructor; intros []|].
  intros i Hi [<-|[]]. contradiction.
Qed.

End TagSelection.

(** ** The question list *)

Section QuestionList.

Import Index.

Variable key : Listed -> Z.
Variable compare : Listed -> Listed -> Z.
Hypothesis compare_key : forall a b, compare a b = key b - key a.

Lemma insert_permutation_key (a : Listed) (l : list Listed) :
  Permutation (insert compare a l) (a :: l).
Proof.
  induction l as [|b l IH]; simpl; [reflexivity|].
  destruct (0 <? compare a b); [|reflexivity].
  rewrite IH. apply perm_swap.
Qed.

Lemma sort_permutation (l : list Listed) : Permutation (sort compare l) l.
Proof.
  induction l as [|a l IH]; simpl; [reflexivity|].
  rewrite insert_permutation_key. now apply perm_skip.
Qed.

Lemma insert_sorted_key (a : Listed) (l : list Listed) :
  Sorted (fun x y => key x >= key y) l ->
  Sorted (fun x y => key x >= key y) (insert compare a l).
Proof.
  induction l as [|b l IH]; intros Hl; simpl.
  - repeat constructor.
  - rewrite compare_key.
    destruct (Z.ltb_spec 0 (key b - key a)).
    + inversion Hl as [|? ? Hs Hhd]; subst.
      constructor; [now apply IH|].
      destruct l as [|d l]; simpl.
      * constructor. lia.
      * rewrite compare_key.
        destruct (Z.ltb_spec 0 (key d - key a)); constructor;
          [now inversion Hhd|lia].
    + constructor; [exact Hl|]. constructor. lia.
Qed.

Lemma sort_sorted (l : list Listed) :
  StronglySorted (fun x y => key x >= key y) (sort compare l).
Proof.
  apply Sorted_StronglySorted.
  - intros x y z. lia.
  - induction l as [|a l IH]; simpl; [constructor|now apply insert_sorted_key].
Qed.

Lemma insert_stable (k : Z) (a : Listed) (l : list Listed) :
  filter (fun x => key x =? k) (insert compare a l)
  = filter (fun x => key x =? k) (a :: l).
Proof.
  induction l as [|b l IH]; [reflexivity|]. simpl insert.
  rewrite compare_key.
  destruct (Z.ltb_spec 0 (key b - key a)); [|reflexivity].
  simpl in *. rewrite IH.
  destruct (Z.eqb_spec (key b) k), (Z.eqb_spec (key a) k); try reflexivity. lia.
Qed.

Lemma sort_stable (k : Z) (l : list Listed) :
  filter (fun x => key x =? k) (sort compare l) = filter (fun x => key x =? k) l.
Proof.
  induction l as [|a l IH]; [reflexivity|]. simpl sort.
  rewrite insert_stable. simpl. now rewrite IH.
Qed.

End QuestionList.

Section QuestionListTabs.

Import Index.

Variable toLowerCase : Js.text -> Js.text.

Lemma sort_key_tab (activeTab : string) (key : Listed -> Z)
    (questions : list Listed) (searchQuery : Js.text) :
  sort_key activeTab = Some key ->
  exists compare,
    (forall a b, compare a b = key b - key a)
    /\ filterAndSortQuestions toLowerCase questions activeTab searchQuery
       = (if Js.nonempty (Js.trim searchQuery) then questions
          else sort compare (searched toLowerCase questions searchQuery),
          sort compare (searched toLowerCase questions searchQuery)).
Proof.
  unfold sort_key, filterAndSortQuestions.
  destruct (activeTab =? "newest")%string;
    [intros H; injection H as <-; exists newest_first; now split|].
  destruct (activeTab =? "popular")%string;
    [intros H; injection H as <-; exists most_votes_first; now split|].
  destruct (activeTab =? "unanswered")%string eqn:E.
  - apply String.eqb_eq in E. subst activeTab. discriminate.
  - destruct (activeTab =? "active")%string; [|discriminate].
    intros H; injection H as <-; exists most_answers_first; now split.
Qed.

(** X16.  On the tabs "newest", "popular" and "active" the list shown holds
    exactly the questions that pass the search, each once, with the larger
    creation time, vote count or answer count first, and questions that tie
    on it stay in the order in which they were stored. *)
Theorem sorting_tab_orders_the_searched_questions
    (activeTab : string) (key : Listed -> Z) (questions : list Listed)
    (searchQuery : Js.text) :
  sort_key activeTab = Some key ->
  let shown := snd (filterAndSortQuestions toLowerCase questions activeTab searchQuery) in
  Permutation shown (searched toLowerCase questions searchQuery)
  /\ StronglySorted (fun a b => key a >= key b) shown
  /\ forall k, filter (fun q => key q =? k) shown
               = filter (fun q => key q =? k)
                        (searched toLowerCase questions searchQuery).
Proof.
  intros Hkey.
  destruct (sort_key_tab activeTab key questions searchQuery Hkey)
    as (compare & Hcompare & ->).
  cbn [snd]. repeat split.
  - apply sort_permutation.
  - now apply sort_sorted.
  - intros k. now apply sort_stable.
Qed.

(** X17.  Without a search term a sorting tab reorders the stored question
    list itself, so the tab "unanswered" chosen next lists the unanswered
    questions in the order of that sort; with a search term the stored list
    is left as it is. *)
Theorem sorting_tab_reorders_the_stored_list
    (activeTab : string) (key : Listed -> Z) (questions : list Listed)
    (searchQuery : Js.text) :
  sort_key activeTab = Some key ->
  let r := filterAndSortQuestions toLowerCase questions activeTab searchQuery in
  if Js.nonempty (Js.trim searchQuery)
  then fst r = questions
  else fst r = snd r
       /\ StronglySorted (fun a b => key a >= key b) (fst r)
       /\ snd (filterAndSortQuestions toLowerCase (fst r) "unanswered" searchQuery)
          = filter unanswered (snd r).
Proof.
  intros Hkey.
  destruct (sort_key_tab activeTab key questions searchQuery Hkey)
    as (compare & Hcompare & ->).
  cbn [fst snd].
  destruct (Js.nonempty (Js.trim searchQuery)) eqn:E; [reflexivity|].
  repeat split.
  - now apply sort_sorted.
  - unfold filterAndSortQuestions, searched. rewrite E. reflexivity.
Qed.

End QuestionListTabs.

(** ** The properties above at sample inputs *)

Section Samples.

Import VoteButtons QuestionDetail Scenario.

Lemma handleVote_keeps_one_row_per_user_witness :
  let p := question_buttons q1 in
  let votes := [mkVote "A" (-1) (Some "q1") None; mkVote "B" 1 (Some "q1") None] in
  (List.length (Votes.types_of "A" (target_column p) (target_value p) votes) <= 1)%nat
  /\ (List.length
        (Votes.types_of "A" (target_column p) (target_value p)
           (snd (fst (handleVote (Some "A") Ok p 1 (initial p) votes)))) <= 1)%nat.
Proof.
  intros p votes.
  assert (H : (List.length (Votes.types_of "A" (target_column p) (target_value p) votes)
               <= 1)%nat) by (vm_compute; lia).
  exact (conj H (handleVote_keeps_one_row_per_user "A" p 1 Ok (initial p) votes H)).
Defined.

Lemma handleVote_keeps_one_target_per_row_witness :
  let p := question_buttons q1 in
  let votes := [mkVote "A" (-1) (Some "q1") None; mkVote "B" 1 None (Some "a1")] in
  Js.truthy (target_value p) = true
  /\ Forall (fun r => Spec.one_target r = true) votes
  /\ Forall (fun r => Spec.one_target r = true)
            (snd (fst (handleVote (Some "A") Ok p 1 (initial p) votes))).
Proof.
  intros p votes.
  assert (H1 : Js.truthy (target_value p) = true) by reflexivity.
  assert (H2 : Forall (fun r => Spec.one_target r = true) votes)
    by (repeat constructor).
  exact (conj H1 (conj H2
           (handleVote_keeps_one_target_per_row "A" p 1 Ok (initial p) votes H1 H2))).
Defined.

Lemma question_page_never_deletes_a_vote_witness :
  let clicks := [Clicks.mkClick (Some "A") Ok true;
                 Clicks.mkClick (Some "A") Ok true;
                 Clicks.mkClick None Ok false;
                 Clicks.mkClick (Some "A") (Failed "offline") false;
                 Clicks.mkClick (Some "A") Ok false] in
  let s := initial (question_buttons q1) in
  Clicks.loaded (page "A" q1 []) s
  /\ existsb Clicks.is_delete
             (snd (Clicks.vote_clicks clicks (page "A" q1 []) s [])) = false.
Proof.
  intros clicks s.
  assert (H : Clicks.loaded (page "A" q1 []) s) by (exists q1; repeat split).
  exact (conj H (proj1 (question_page_never_deletes_a_vote
                          clicks (page "A" q1 []) s [] H))).
Defined.

Lemma repeated_clicks_drift_from_ledger_witness :
  let votes := [mkVote "B" 1 (Some "q1") None] in
  let r := Clicks.vote_clicks (repeat (Clicks.mkClick (Some "A") Ok true) 3)
                              (page "A" (fetched q1 votes) [])
                              (initial (question_buttons (fetched q1 votes))) votes in
  Votes.types_of "A" question_id_col (Some "q1") votes = []
  /\ option_map Questions.vote_count (question (fst (fst (fst r)))) = Some 4
  /\ Votes.sum question_id_col (Some "q1") (snd (fst r)) = 2.
Proof.
  intros votes r.
  assert (Hid : Questions.id (fetched q1 votes) <> "") by discriminate.
  assert (Hm : Votes.types_of "A" question_id_col
                 (Some (Questions.id (fetched q1 votes))) votes = []) by reflexivity.
  destruct (repeated_clicks_drift_from_ledger
              2 "A" true (page "A" (fetched q1 votes) [])
              (initial (question_buttons (fetched q1 votes))) votes
              (fetched q1 votes) eq_refl eq_refl eq_refl Hid Hm) as (H1 & _ & H3).
  exact (conj Hm (conj H1 H3)).
Defined.

Lemma vote_on_answer_leaves_answer_votes_witness :
  let pg := page "A" q1 [a1] in
  let votes := [mkVote "B" 1 None (Some "a1")] in
  Forall (fun r => Spec.one_target r = true) votes
  /\ Votes.types_on answer_id_col (Some "a1")
       (snd (fst (vote_on_answer (Some "A") Ok "a1" 1 pg
                    (initial (answer_buttons (Some "A") q1 a1)) votes)))
     = Votes.types_on answer_id_col (Some "a1") votes.
Proof.
  intros pg votes.
  assert (H1 : forall q, question pg = Some q -> Questions.id q <> "")
    by (intros q H; injection H as <-; discriminate).
  assert (H2 : Forall (fun r => Spec.one_target r = true) votes)
    by (repeat constructor).
  exact (conj H2 (vote_on_answer_leaves_answer_votes
                    (Some "A") Ok "a1" 1 pg
                    (initial (answer_buttons (Some "A") q1 a1)) votes (Some "a1")
                    H1 H2)).
Defined.

Lemma accepted_answer_is_listed_first_witness :
  let a := Answers.mkRow "y" "q1" [] 3 true 30 "C" in
  In a three_answers
  /\ exists first rest,
       select_answers (Some "q1") three_answers = first :: rest
       /\ Answers.is_accepted first = true.
Proof.
  intros a.
  assert (H : In a three_answers) by (right; left; reflexivity).
  exact (conj H (accepted_answer_is_listed_first
                   (Some "q1") three_answers a H eq_refl eq_refl)).
Defined.

Lemma handleSubmitAnswer_sends_trimmed_text_witness :
  let pg := mkPage (Some q1) [] [32; 72; 105; 10]%N false false (Some "A") in
  Js.trim (newAnswer pg) <> []
  /\ filter is_remote_mutation (snd (handleSubmitAnswer (Some "q1") Ok pg))
     = [Remote (AnswersInsert [72; 105]%N (Some "q1") "A")].
Proof.
  intros pg.
  assert (H : Js.trim (newAnswer pg) <> []) by discriminate.
  exact (conj H (proj1 (handleSubmitAnswer_sends_trimmed_text
                          (Some "q1") Ok pg "A" eq_refl H))).
Defined.

Lemma accept_request_needs_the_author_witness :
  In (Remote (RpcAcceptAnswer "q1" "a1"))
     (snd (click_accept (Some "asker") Ok (answer_buttons (Some "asker") q1 a1) tables))
  /\ Some "asker" = Some (Questions.user_id q1).
Proof.
  assert (H : In (Remote (RpcAcceptAnswer "q1" "a1"))
                 (snd (click_accept (Some "asker") Ok
                         (answer_buttons (Some "asker") q1 a1) tables)))
    by (left; reflexivity).
  exact (conj H (proj1 (accept_request_needs_the_author
                          (Some "asker") Ok q1 a1 tables _ H))).
Defined.

Lemma handleSubmit_links_every_tag_after_the_insert_witness :
  let f := AskQuestion.mkForm [72; 105]%N [60; 112; 62]%N
             [AskQuestion.mkTag "t1" "css" None; AskQuestion.mkTag "t2" "js" None]
             false (Some "A") in
  Render.post_question_disabled f = false
  /\ filter is_remote (snd (AskQuestion.handleSubmit (AskQuestion.NewQuestion "q9") f))
     = [Remote (QuestionsInsert [72; 105]%N [60; 112; 62]%N "A");
        Remote (QuestionTagsInsert "q9" "t1");
        Remote (QuestionTagsInsert "q9" "t2")].
Proof.
  intros f.
  assert (H : Render.post_question_disabled f = false) by reflexivity.
  destruct (handleSubmit_links_every_tag_after_the_insert
              (AskQuestion.NewQuestion "q9") f "A" eq_refl H)
    as (_ & _ & _ & _ & H1 & _).
  exact (conj H H1).
Defined.

Lemma removeTag_undoes_pick_suggestion_witness :
  let s := TagInput.mkState [115]%N [Sample.sql] true in
  TagInput.selected_id [Sample.css; Sample.js] Sample.sql = false
  /\ TagInput.removeTag "t3"
       (fst (TagInput.pick_suggestion Sample.sql [Sample.css; Sample.js] s))
     = [Sample.css; Sample.js].
Proof.
  intros s.
  assert (H : TagInput.selected_id [Sample.css; Sample.js] Sample.sql = false)
    by reflexivity.
  exact (conj H (removeTag_undoes_pick_suggestion
                   Sample.sql [Sample.css; Sample.js] s H)).
Defined.

Lemma backspace_removes_the_last_tag_witness :
  let s := TagInput.mkState [] [] false in
  NoDup (map TagInput.id [Sample.css; Sample.js])
  /\ TagInput.handleKeyDown Text.ascii_lower "Backspace" None None
       [Sample.css; Sample.js] s
     = ([Sample.css], s, []).
Proof.
  intros s.
  assert (H : NoDup (map TagInput.id [Sample.css; Sample.js])).
  { repeat constructor; simpl; [intros [E|[]]; discriminate|intros []]. }
  exact (conj H (backspace_removes_the_last_tag
                   Text.ascii_lower None None [Sample.css; Sample.js] s H eq_refl)).
Defined.

Lemma suggestions_skip_selected_tags_witness :
  let s := TagInput.mkState [115]%N [] true in
  NoDup (map TagInput.id [Sample.css])
  /\ In Sample.sql
        (TagInput.suggestions
           (TagInput.fetchTagSuggestions (Some [Sample.css; Sample.sql]) [Sample.css] s))
  /\ ~ In (TagInput.id Sample.sql) (map TagInput.id [Sample.css]).
Proof.
  intros s.
  assert (H1 : NoDup (map TagInput.id [Sample.css]))
    by (repeat constructor; intros []).
  assert (H2 : In Sample.sql
                  (TagInput.suggestions
                     (TagInput.fetchTagSuggestions
                        (Some [Sample.css; Sample.sql]) [Sample.css] s)))
    by (left; reflexivity).
  destruct (suggestions_skip_selected_tags
              [Sample.css; Sample.sql] [Sample.css] s Sample.sql H1 H2)
    as (_ & H3 & _).
  exact (conj H1 (conj H2 H3)).
Defined.

Lemma sorting_tab_orders_the_searched_questions_witness :
  Index.sort_key "popular" = Some Sample.by_votes
  /\ StronglySorted (fun a b => Sample.by_votes a >= Sample.by_votes b)
       (snd (Index.filterAndSortQuestions Text.ascii_lower Sample.listing "popular" [])).
Proof.
  assert (H : Index.sort_key "popular" = Some Sample.by_votes) by reflexivity.
  destruct (sorting_tab_orders_the_searched_questions
              Text.ascii_lower "popular" Sample.by_votes Sample.listing [] H)
    as (_ & H1 & _).
  exact (conj H H1).
Defined.

Lemma sorting_tab_reorders_the_stored_list_witness :
  let r := Index.filterAndSortQuestions Text.ascii_lower Sample.listing "popular" [] in
  Index.sort_key "popular" = Some Sample.by_votes
  /\ fst r = snd r
  /\ snd (Index.filterAndSortQuestions Text.ascii_lower (fst r) "unanswered" [])
     = filter Index.unanswered (snd r).
Proof.
  intros r.
  assert (H : Index.sort_key "popular" = Some Sample.by_votes) by reflexivity.
  destruct (sorting_tab_reorders_the_stored_list
              Text.ascii_lower "popular" Sample.by_votes Sample.listing [] H)
    as (H1 & _ & H3).
  exact (conj H (conj H1 H3)).
Defined.

End Samples.
